(** * Reconciliation and batching engine of dvmn_seller-apis

    A shallow embedding of the data-transformation core of [seller.py]
    (Ozon, "Marketplace A") and [market.py] (Yandex.Market, "Marketplace B"):
    quantity classification, price normalisation, the feed/catalog
    reconciliation loops [create_stocks] and [create_prices], and the batch
    partitioner [divide].

    Modelling conventions.
    - A Python [str] is a [string] holding its UTF-8 bytes.  Every character
      the code inspects (['.'], ['0'..'9'], ['>'], ['-'], ['_'], blanks) is
      ASCII, and no byte of a multi-byte UTF-8 sequence is below 128, so
      [split(".")] and [re.sub("[^0-9]", "", _)] act on the bytes exactly as
      they act on the code points.
    - A Python [int] is a [Z] (unbounded).
    - A raised exception is the [Raise] branch of [result]; the spec's
      [MalformedQuantity] and [MalformedPrice] are the [ValueError] of
      [int()], its [InvalidBatchSize] is the [ValueError] of [range()].
    - A feed cell ([watch.get(key)]) is a [pyval]: the spreadsheet reader
      yields integers or text, and [dict.get] yields [None] for a missing key.
      Floating-point cells are outside the model.
    - A catalog ([offer_ids]) is a Python list of [str], as both
      [get_offer_ids] build it; order and repetitions are kept.
    - [int(str)] follows CPython 3.11: every blank of Unicode is read as a
      space and every decimal digit of Unicode as its ASCII digit, then come
      blanks around the literal, an optional sign, decimal digits with single
      underscores between digits; more than 4300 digits (the interpreter's
      default limit) are refused, as they are by [str(int)] where the
      quantity is classified.  The join key [str(code)] is taken as total:
      a spreadsheet holds no integer of that size. *)

From Stdlib Require Import List String Ascii ZArith Bool Lia Permutation.
From Stdlib Require Import DecimalString DecimalZ.
Import ListNotations.

Local Open Scope string_scope.
Local Open Scope Z_scope.
Local Open Scope list_scope.

Set Implicit Arguments.

(** ** Exceptions and results *)

Inductive exn : Type :=
| ValueError
| TypeError
| AttributeError
| IndexError.

Inductive result (A : Type) : Type :=
| Ok (a : A)
| Raise (e : exn).

Arguments Ok {A} a.
Arguments Raise {A} e.

Definition bind {A B : Type} (r : result A) (k : A -> result B) : result B :=
  match r with
  | Ok a => k a
  | Raise e => Raise e
  end.

Notation "x <- c ;; k" := (bind c (fun x => k))
  (at level 61, c at next level, right associativity).
Notation "' pat <- c ;; k" := (bind c (fun x => match x with pat => k end))
  (at level 61, pat pattern, c at next level, right associativity).

(** ** Python values held by a feed row *)

Inductive pyval : Type :=
| PyNone
| PyInt (z : Z)
| PyStr (s : string).

(** [str(v)] *)
Definition py_str (v : pyval) : string :=
  match v with
  | PyNone => "None"
  | PyInt z => NilZero.string_of_int (Z.to_int z)
  | PyStr s => s
  end.

(** *** [int(s)] for text *)

Definition is_digit (a : ascii) : bool :=
  let n := nat_of_ascii a in (48 <=? n)%nat && (n <=? 57)%nat.

Definition digit_value (a : ascii) : Z := Z.of_nat (nat_of_ascii a) - 48.

(** C's [isspace] in the "C" locale: tab, newline, vertical tab, form feed,
    carriage return, space. *)
Definition is_space (a : ascii) : bool :=
  let n := nat_of_ascii a in
  ((9 <=? n)%nat && (n <=? 13)%nat) || (n =? 32)%nat.

Fixpoint lstrip (s : string) : string :=
  match s with
  | String a r => if is_space a then lstrip r else s
  | EmptyString => EmptyString
  end.

Fixpoint all_space (s : string) : bool :=
  match s with
  | String a r => is_space a && all_space r
  | EmptyString => true
  end.

(** The digit loop: [after_digit] records whether the previous character was
    a digit, which is what an underscore, a trailing blank and the end of the
    text each require. *)
Fixpoint parse_digits (after_digit : bool) (acc : Z) (s : string) : option Z :=
  match s with
  | EmptyString => if after_digit then Some acc else None
  | String a r =>
      if is_digit a then parse_digits true (10 * acc + digit_value a) r
      else if Ascii.eqb a "_" then
        if after_digit then parse_digits false acc r else None
      else if is_space a then
        if after_digit && all_space r then Some acc else None
      else None
  end.

Definition parse_int (s : string) : option Z :=
  match lstrip s with
  | String a r =>
      if Ascii.eqb a "-" then option_map Z.opp (parse_digits false 0 r)
      else if Ascii.eqb a "+" then parse_digits false 0 r
      else parse_digits false 0 (String a r)
  | EmptyString => None
  end.

(** **** Text outside ASCII *)

(** The decimal digits of Unicode 14.0 outside ASCII, as CPython 3.11 holds
    them: runs of code points, given by their first code point and their
    length; the value of a digit is its offset in its run, modulo 10. *)
Definition unicode_decimal_runs : list (Z * Z) :=
  [(0x660, 10); (0x6f0, 10); (0x7c0, 10); (0x966, 10); (0x9e6, 10);
   (0xa66, 10); (0xae6, 10); (0xb66, 10); (0xbe6, 10); (0xc66, 10);
   (0xce6, 10); (0xd66, 10); (0xde6, 10); (0xe50, 10); (0xed0, 10);
   (0xf20, 10); (0x1040, 10); (0x1090, 10); (0x17e0, 10); (0x1810, 10);
   (0x1946, 10); (0x19d0, 10); (0x1a80, 10); (0x1a90, 10); (0x1b50, 10);
   (0x1bb0, 10); (0x1c40, 10); (0x1c50, 10); (0xa620, 10); (0xa8d0, 10);
   (0xa900, 10); (0xa9d0, 10); (0xa9f0, 10); (0xaa50, 10); (0xabf0, 10);
   (0xff10, 10); (0x104a0, 10); (0x10d30, 10); (0x11066, 10); (0x110f0, 10);
   (0x11136, 10); (0x111d0, 10); (0x112f0, 10); (0x11450, 10); (0x114d0, 10);
   (0x11650, 10); (0x116c0, 10); (0x11730, 10); (0x118e0, 10); (0x11950, 10);
   (0x11c50, 10); (0x11d50, 10); (0x11da0, 10); (0x16a60, 10); (0x16ac0, 10);
   (0x16b50, 10); (0x1d7ce, 50); (0x1e140, 10); (0x1e2f0, 10); (0x1e950, 10);
   (0x1fbf0, 10)].

(** [Py_UNICODE_TODECIMAL] outside ASCII *)
Definition unicode_decimal (cp : Z) : option Z :=
  match find (fun run => (fst run <=? cp) && (cp <? fst run + snd run))
             unicode_decimal_runs with
  | Some run => Some ((cp - fst run) mod 10)
  | None => None
  end.

(** The blanks of Unicode outside ASCII ([Py_UNICODE_ISSPACE]). *)
Definition unicode_spaces : list Z :=
  [0x85; 0xa0; 0x1680; 0x2000; 0x2001; 0x2002; 0x2003; 0x2004; 0x2005;
   0x2006; 0x2007; 0x2008; 0x2009; 0x200a; 0x2028; 0x2029; 0x202f; 0x205f;
   0x3000].

Definition unicode_space (cp : Z) : bool := existsb (Z.eqb cp) unicode_spaces.

Definition digit_char (d : Z) : ascii := ascii_of_nat (48 + Z.to_nat d).

(** What [int()] reads a character outside ASCII as: a space for a blank,
    the ASCII digit for a decimal digit, nothing that it could accept for
    any other. *)
Definition ascii_of_code_point (cp : Z) : option ascii :=
  if unicode_space cp then Some " "%char
  else match unicode_decimal cp with
       | Some d => Some (digit_char d)
       | None => None
       end.

(** A UTF-8 sequence under way: the bytes still due, the bits read so far,
    and the least code point a sequence of its length may stand for. *)
Record pending : Type := {
  due : nat;
  bits : Z;
  least : Z
}.

Definition lead_byte (b : Z) : option pending :=
  if (0xc2 <=? b) && (b <=? 0xdf)
  then Some {| due := 1; bits := b - 0xc0; least := 0x80 |}
  else if (0xe0 <=? b) && (b <=? 0xef)
  then Some {| due := 2; bits := b - 0xe0; least := 0x800 |}
  else if (0xf0 <=? b) && (b <=? 0xf4)
  then Some {| due := 3; bits := b - 0xf0; least := 0x10000 |}
  else None.

Definition valid_code_point (cp least : Z) : bool :=
  (least <=? cp) && (cp <=? 0x10ffff)
  && negb ((0xd800 <=? cp) && (cp <=? 0xdfff)).

(** The text [int()] parses in place of [s]
    ([_PyUnicode_TransformDecimalAndSpaceToASCII]): ASCII characters stay,
    the others are read as above; [None] when a character is read as
    nothing acceptable (or when the bytes are no UTF-8 text at all). *)
Fixpoint ascii_image (st : option pending) (s : string) : option string :=
  match s with
  | EmptyString =>
      match st with
      | None => Some EmptyString
      | Some _ => None
      end
  | String a r =>
      let b := Z.of_nat (nat_of_ascii a) in
      match st with
      | None =>
          if b <? 0x80 then option_map (String a) (ascii_image None r)
          else match lead_byte b with
               | Some p => ascii_image (Some p) r
               | None => None
               end
      | Some p =>
          if (0x80 <=? b) && (b <=? 0xbf) then
            let cp := bits p * 64 + (b - 0x80) in
            match due p with
            | S (S k) =>
                ascii_image
                  (Some {| due := S k; bits := cp; least := least p |}) r
            | _ =>
                if valid_code_point cp (least p) then
                  match ascii_of_code_point cp with
                  | Some c => option_map (String c) (ascii_image None r)
                  | None => None
                  end
                else None
            end
          else None
      end
  end.

(** The number of decimal digits in a text. *)
Fixpoint count_digits (s : string) : Z :=
  match s with
  | EmptyString => 0
  | String a r => (if is_digit a then 1 else 0) + count_digits r
  end.

(** [sys.get_int_max_str_digits()], at its default. *)
Definition int_max_str_digits : Z := 4300.

(** [int(s)] for text *)
Definition int_of_str (s : string) : result Z :=
  match ascii_image None s with
  | None => Raise ValueError
  | Some a =>
      match parse_int a with
      | None => Raise ValueError
      | Some z =>
          if int_max_str_digits <? count_digits a then Raise ValueError
          else Ok z
      end
  end.

(** [str(v)], with the limit the interpreter puts on the digits of an
    integer it prints. *)
Definition str_of (v : pyval) : result string :=
  match v with
  | PyInt _ =>
      if int_max_str_digits <? count_digits (py_str v) then Raise ValueError
      else Ok (py_str v)
  | _ => Ok (py_str v)
  end.

(** [int(v)] *)
Definition py_int (v : pyval) : result Z :=
  match v with
  | PyNone => Raise TypeError
  | PyInt z => Ok z
  | PyStr s => int_of_str s
  end.

(** *** [s.split(sep)] for a one-character separator, and [re.sub] *)

(** The pieces of [s] between the occurrences of [sep]; never empty. *)
Fixpoint py_split (sep : ascii) (s : string) : list string :=
  match s with
  | EmptyString => [EmptyString]
  | String a r =>
      if Ascii.eqb a sep then EmptyString :: py_split sep r
      else match py_split sep r with
           | piece :: pieces => String a piece :: pieces
           | [] => [String a EmptyString]
           end
  end.

(** [re.sub("[^0-9]", "", s)]: every character outside ['0'..'9'] is
    replaced by nothing. *)
Fixpoint re_sub_non_digits (s : string) : string :=
  match s with
  | EmptyString => EmptyString
  | String a r =>
      if is_digit a then String a (re_sub_non_digits r)
      else re_sub_non_digits r
  end.

(** *** Lists *)

(** [x in lst] *)
Definition py_in (x : string) (lst : list string) : bool :=
  existsb (String.eqb x) lst.

(** [lst.remove(x)]: drops the first element equal to [x]; raises
    [ValueError] when there is none. *)
Fixpoint py_remove (x : string) (lst : list string) : result (list string) :=
  match lst with
  | [] => Raise ValueError
  | y :: ys =>
      if String.eqb y x then Ok ys
      else (ys' <- py_remove x ys ;; Ok (y :: ys'))
  end.

(** [len(range(start, stop, step))], as CPython computes it. *)
Definition range_length (start stop step : Z) : Z :=
  if 0 <? step then
    if start <? stop then (stop - start - 1) / step + 1 else 0
  else
    if stop <? start then (start - stop - 1) / (- step) + 1 else 0.

(** [list(range(start, stop, step))] *)
Definition py_range (start stop step : Z) : result (list Z) :=
  if step =? 0 then Raise ValueError
  else Ok (map (fun i => start + Z.of_nat i * step)
               (seq 0 (Z.to_nat (range_length start stop step)))).

(** [lst[i:j]]: a negative bound counts from the end, and both bounds are
    clamped to [0 .. len(lst)]. *)
Definition slice_bound (len k : Z) : Z :=
  if k <? 0 then Z.max 0 (k + len) else Z.min k len.

Definition py_slice {A : Type} (lst : list A) (i j : Z) : list A :=
  let len := Z.of_nat (List.length lst) in
  let lo := slice_bound len i in
  let hi := slice_bound len j in
  firstn (Z.to_nat (hi - lo)) (skipn (Z.to_nat lo) lst).

(** [lst[0]] *)
Definition py_first {A : Type} (lst : list A) : result A :=
  match lst with
  | x :: _ => Ok x
  | [] => Raise IndexError
  end.

(** ** The supplier feed *)

(** One row of the feed: the cells under the keys "Код", "Количество" and
    "Цена", each as [watch.get(key)] returns it. *)
Record watch : Type := {
  w_code : pyval;
  w_count : pyval;
  w_price : pyval
}.

(** The quantity rule written out in both [create_stocks]
    (seller.py 209-215, market.py 214-220): the text of the cell decides
    between the two literals, and [int()] is applied to the cell itself. *)
Definition stock_of_count (quantity : pyval) : result Z :=
  count <- str_of quantity ;;
  if String.eqb count ">10" then Ok 100
  else if String.eqb count "1" then Ok 0
  else py_int quantity.

(** seller.py [price_conversion] *)
Definition price_conversion (price : pyval) : result string :=
  match price with
  | PyStr s =>
      integer_part <- py_first (py_split "." s) ;;
      Ok (re_sub_non_digits integer_part)
  | _ => Raise AttributeError
  end.

(** seller.py [divide], as [list(divide(lst, n))] observes it. *)
Definition divide {A : Type} (lst : list A) (n : Z) : result (list (list A)) :=
  starts <- py_range 0 (Z.of_nat (List.length lst)) n ;;
  Ok (map (fun i => py_slice lst i (i + n)) starts).

(** ** seller.py *)

Module Seller.

Record stock_item : Type := {
  offer_id : string;
  stock : Z
}.

Record price_item : Type := {
  auto_action_enabled : string;
  currency_code : string;
  price_offer_id : string;
  old_price : string;
  price : string
}.

(** The first loop of [create_stocks]; [stocks] and [offer_ids] are the
    two lists it mutates. *)
Fixpoint match_feed (watch_remnants : list watch)
    (stocks : list stock_item) (offer_ids : list string)
    : result (list stock_item * list string) :=
  match watch_remnants with
  | [] => Ok (stocks, offer_ids)
  | watch :: rest =>
      if py_in (py_str (w_code watch)) offer_ids then
        stock <- stock_of_count (w_count watch) ;;
        let stocks :=
          stocks ++ [{| offer_id := py_str (w_code watch); stock := stock |}] in
        offer_ids <- py_remove (py_str (w_code watch)) offer_ids ;;
        match_feed rest stocks offer_ids
      else match_feed rest stocks offer_ids
  end.

(** The second loop of [create_stocks]. *)
Definition add_missing (stocks : list stock_item) (offer_ids : list string)
    : list stock_item :=
  fold_left
    (fun stocks offer_id => stocks ++ [{| offer_id := offer_id; stock := 0 |}])
    offer_ids stocks.

(** [create_stocks]: the returned list, and [offer_ids] as the caller
    finds it afterwards. *)
Definition create_stocks (watch_remnants : list watch)
    (offer_ids : list string) : result (list stock_item * list string) :=
  '(stocks, offer_ids) <- match_feed watch_remnants [] offer_ids ;;
  Ok (add_missing stocks offer_ids, offer_ids).

Fixpoint price_feed (watch_remnants : list watch)
    (prices : list price_item) (offer_ids : list string)
    : result (list price_item) :=
  match watch_remnants with
  | [] => Ok prices
  | watch :: rest =>
      if py_in (py_str (w_code watch)) offer_ids then
        value <- price_conversion (w_price watch) ;;
        let price :=
          {| auto_action_enabled := "UNKNOWN";
             currency_code := "RUB";
             price_offer_id := py_str (w_code watch);
             old_price := "0";
             price := value |} in
        price_feed rest (prices ++ [price]) offer_ids
      else price_feed rest prices offer_ids
  end.

Definition create_prices (watch_remnants : list watch)
    (offer_ids : list string) : result (list price_item) :=
  price_feed watch_remnants [] offer_ids.

(** The body of [main] between the two downloads and the handlers: the
    batches handed to [update_stocks] and to [update_price], in order.
    [create_prices] receives the list [create_stocks] has mutated. *)
Definition main_batches (watch_remnants : list watch)
    (offer_ids : list string)
    : result (list (list stock_item) * list (list price_item)) :=
  '(stocks, offer_ids) <- create_stocks watch_remnants offer_ids ;;
  stock_batches <- divide stocks 100 ;;
  prices <- create_prices watch_remnants offer_ids ;;
  price_batches <- divide prices 900 ;;
  Ok (stock_batches, price_batches).

End Seller.

(** ** market.py *)

Module Market.

Record stock_count : Type := {
  count : Z;
  type : string;
  updatedAt : string
}.

Record sku_stock : Type := {
  sku : string;
  warehouseId : string;
  items : list stock_count
}.

Record price_value : Type := {
  value : Z;
  currencyId : string
}.

Record offer_price : Type := {
  id : string;
  price : price_value
}.

(** The wall clock: [readings k] is the text
    [utcnow().replace(microsecond=0).isoformat() + "Z"] that the [k]-th
    reading of the clock produces, [reads] counts the readings made. *)
Record clock : Type := {
  readings : nat -> string;
  reads : nat
}.

Definition utcnow (c : clock) : string * clock :=
  (readings c (reads c), {| readings := readings c; reads := S (reads c) |}).

Fixpoint match_feed (date warehouse_id : string)
    (watch_remnants : list watch)
    (stocks : list sku_stock) (offer_ids : list string)
    : result (list sku_stock * list string) :=
  match watch_remnants with
  | [] => Ok (stocks, offer_ids)
  | watch :: rest =>
      if py_in (py_str (w_code watch)) offer_ids then
        stock <- stock_of_count (w_count watch) ;;
        let stocks :=
          stocks ++ [{| sku := py_str (w_code watch);
                        warehouseId := warehouse_id;
                        items := [{| count := stock;
                                     type := "FIT";
                                     updatedAt := date |}] |}] in
        offer_ids <- py_remove (py_str (w_code watch)) offer_ids ;;
        match_feed date warehouse_id rest stocks offer_ids
      else match_feed date warehouse_id rest stocks offer_ids
  end.

Definition add_missing (date warehouse_id : string)
    (stocks : list sku_stock) (offer_ids : list string) : list sku_stock :=
  fold_left
    (fun stocks offer_id =>
       stocks ++ [{| sku := offer_id;
                     warehouseId := warehouse_id;
                     items := [{| count := 0;
                                  type := "FIT";
                                  updatedAt := date |}] |}])
    offer_ids stocks.

Definition create_stocks (watch_remnants : list watch)
    (offer_ids : list string) (warehouse_id : string) (c : clock)
    : result (list sku_stock * list string) * clock :=
  let '(date, c) := utcnow c in
  ('(stocks, offer_ids) <-
      match_feed date warehouse_id watch_remnants [] offer_ids ;;
   Ok (add_missing date warehouse_id stocks offer_ids, offer_ids),
   c).

(** [int(price_conversion(price))] *)
Definition price_number (price : pyval) : result Z :=
  digits <- price_conversion price ;;
  int_of_str digits.

Fixpoint price_feed (watch_remnants : list watch)
    (prices : list offer_price) (offer_ids : list string)
    : result (list offer_price) :=
  match watch_remnants with
  | [] => Ok prices
  | watch :: rest =>
      if py_in (py_str (w_code watch)) offer_ids then
        v <- price_number (w_price watch) ;;
        let price :=
          {| id := py_str (w_code watch);
             price := {| value := v; currencyId := "RUR" |} |} in
        price_feed rest (prices ++ [price]) offer_ids
      else price_feed rest prices offer_ids
  end.

Definition create_prices (watch_remnants : list watch)
    (offer_ids : list string) : result (list offer_price) :=
  price_feed watch_remnants [] offer_ids.

End Market.

(** ** Vocabulary of the specification *)

(** The join key of a feed row and the keys of a feed, in feed order. *)
Definition code (w : watch) : string := py_str (w_code w).

Definition codes (feed : list watch) : list string := map code feed.

(** The rows of a feed whose code was not met before ([seen] holds the codes
    met so far): of several rows with one code the first is kept. *)
Fixpoint first_rows (seen : list string) (feed : list watch) : list watch :=
  match feed with
  | [] => []
  | w :: ws =>
      if py_in (code w) seen then first_rows seen ws
      else w :: first_rows (code w :: seen) ws
  end.

(** The catalog identifiers that no feed row carries, in catalog order. *)
Definition unmatched (feed : list watch) (C : list string) : list string :=
  filter (fun i => negb (py_in i (codes feed))) C.

(** The feed codes that the catalog lists, one per feed row, in feed order. *)
Definition matched_codes (feed : list watch) (C : list string) : list string :=
  filter (fun c => py_in c C) (codes feed).

(** The update [r], of shape [mk], carries the code of the row [w] and the
    count its quantity classifies to. *)
Definition emitted {R : Type} (mk : string -> Z -> R) (w : watch) (r : R)
    : Prop :=
  exists n, stock_of_count (w_count w) = Ok n /\ r = mk (code w) n.

(** What reconciliation promises about the stock updates [stocks] and the
    catalog list [C'] left behind, for an update shape [mk] with key [key]:
    first the updates of the matched rows, one per code and in feed order,
    then a zero for every catalog identifier the feed does not carry, in
    catalog order; the keys are those of [C], each once. *)
Definition reconciled {R : Type} (key : R -> string) (mk : string -> Z -> R)
    (feed : list watch) (C : list string)
    (stocks : list R) (C' : list string) : Prop :=
  exists matched,
    stocks = matched ++ map (fun i => mk i 0) C' /\
    Forall2 (emitted mk)
            (first_rows [] (filter (fun w => py_in (code w) C) feed)) matched /\
    C' = unmatched feed C /\
    Permutation (map key stocks) C /\
    NoDup (map key stocks) /\
    List.length stocks = List.length C.

(** What [create_prices] promises about its updates, with key [key]: one
    update per feed row whose code the catalog lists, in feed order; so every
    key is a catalog identifier and a feed code, and no key comes twice
    unless a code comes twice in the feed. *)
Definition price_law {R : Type} (key : R -> string)
    (feed : list watch) (C : list string) (prices : list R) : Prop :=
  map key prices = matched_codes feed C /\
  (forall x, In x (map key prices) -> In x C /\ In x (codes feed)) /\
  (NoDup (codes feed) -> NoDup (map key prices)).

(** The price text up to, and without, its first ['.']. *)
Fixpoint before_first_dot (s : string) : string :=
  match s with
  | EmptyString => EmptyString
  | String a r => if Ascii.eqb a "." then EmptyString
                  else String a (before_first_dot r)
  end.

(** A text with every character that is not a decimal digit deleted. *)
Definition digits_only (s : string) : string :=
  string_of_list_ascii (filter is_digit (list_ascii_of_string s)).

(** The number a text of decimal digits denotes. *)
Definition base10 (s : string) : Z :=
  fold_left (fun acc a => 10 * acc + digit_value a) (list_ascii_of_string s) 0.

Definition all_digits (s : string) : bool :=
  forallb is_digit (list_ascii_of_string s).

(** The number a list of decimal digits denotes. *)
Definition decimal_value (ds : list ascii) : Z :=
  fold_left (fun acc a => 10 * acc + digit_value a) ds 0.

(** A text of ASCII characters only. *)
Definition ascii_text (s : string) : bool :=
  forallb (fun a => (nat_of_ascii a <? 128)%nat) (list_ascii_of_string s).

(** A text of decimal digits with single underscores between digits, and
    the digits it holds, in order. *)
Inductive grouped : string -> list ascii -> Prop :=
| grouped_last (c : ascii) :
    is_digit c = true -> grouped (String c EmptyString) [c]
| grouped_digit (c : ascii) (r : string) (ds : list ascii) :
    is_digit c = true -> grouped r ds -> grouped (String c r) (c :: ds)
| grouped_underscore (c : ascii) (r : string) (ds : list ascii) :
    is_digit c = true -> grouped r ds ->
    grouped (String c (String "_" r)) (c :: ds).

(** [t] is a base-10 integer literal of Python and [z] the integer it
    denotes: with every blank of Unicode read as a space and every decimal
    digit of Unicode as its ASCII digit, [t] is blanks, an optional sign,
    decimal digits with single underscores between digits, and blanks; the
    digits are at most 4300. *)
Definition int_literal (t : string) (z : Z) : Prop :=
  exists lead sign body trail ds,
    ascii_image None t = Some (lead ++ sign ++ body ++ trail)%string /\
    all_space lead = true /\ all_space trail = true /\
    (sign = EmptyString \/ sign = "+" \/ sign = "-") /\
    grouped body ds /\
    Z.of_nat (List.length ds) <= int_max_str_digits /\
    z = (if String.eqb sign "-" then - decimal_value ds
         else decimal_value ds).

(** A price of 4301 digits. *)
Definition long_price : string :=
  string_of_list_ascii (repeat "1"%char 4301).

(** No minus sign anywhere in a text. *)
Definition no_minus (s : string) : bool :=
  forallb (fun a => negb (Ascii.eqb a "-")) (list_ascii_of_string s).

(** [ceil(a / b)] for a positive [b]. *)
Definition ceil_div (a b : Z) : Z := (a + b - 1) / b.

(** The two reconciliation loops, with the shape of the emitted update left
    open; each marketplace's loop is an instance
    ([Seller.match_feed_loop], [Market.match_feed_loop] and the like below). *)
Section Loops.

Variables (R : Type) (mk : string -> Z -> R).

Fixpoint match_loop (feed : list watch) (stocks : list R)
    (offer_ids : list string) : result (list R * list string) :=
  match feed with
  | [] => Ok (stocks, offer_ids)
  | w :: rest =>
      if py_in (code w) offer_ids then
        n <- stock_of_count (w_count w) ;;
        ids <- py_remove (code w) offer_ids ;;
        match_loop rest (stocks ++ [mk (code w) n]) ids
      else match_loop rest stocks offer_ids
  end.

Variables (V : Type) (conv : pyval -> result V) (mkp : string -> V -> R).

Fixpoint price_loop (feed : list watch) (prices : list R)
    (offer_ids : list string) : result (list R) :=
  match feed with
  | [] => Ok prices
  | w :: rest =>
      if py_in (code w) offer_ids then
        v <- conv (w_price w) ;;
        price_loop rest (prices ++ [mkp (code w) v]) offer_ids
      else price_loop rest prices offer_ids
  end.

End Loops.

(** The update shapes of the two marketplaces. *)
Definition seller_stock (i : string) (n : Z) : Seller.stock_item :=
  {| Seller.offer_id := i; Seller.stock := n |}.

Definition seller_price (i : string) (v : string) : Seller.price_item :=
  {| Seller.auto_action_enabled := "UNKNOWN";
     Seller.currency_code := "RUB";
     Seller.price_offer_id := i;
     Seller.old_price := "0";
     Seller.price := v |}.

Definition market_stock (date warehouse_id : string) (i : string) (n : Z)
    : Market.sku_stock :=
  {| Market.sku := i;
     Market.warehouseId := warehouse_id;
     Market.items := [{| Market.count := n;
                         Market.type := "FIT";
                         Market.updatedAt := date |}] |}.

Definition market_price (i : string) (v : Z) : Market.offer_price :=
  {| Market.id := i;
     Market.price := {| Market.value := v; Market.currencyId := "RUR" |} |}.

(** A feed and a catalog for the worked scenarios. *)
Definition row (c q p : string) : watch :=
  {| w_code := PyStr c; w_count := PyStr q; w_price := PyStr p |}.

Definition feed_48852 : list watch :=
  [{| w_code := PyInt 48852; w_count := PyInt 3;
      w_price := PyStr "24'570.00 руб." |}].

Definition catalog_2 : list string := ["48852"; "99999"].

Definition clock_0 : Market.clock :=
  {| Market.readings := fun k => match k with
                                | O => "2023-05-01T10:00:00Z"
                                | S _ => "2023-05-01T10:00:07Z"
                                end;
     Market.reads := 0 |}.

(** ** Calls to the outside *)

(** What a call can end with besides a value: the exceptions of [requests]
    ([raise_for_status] and the transport), or one of the interpreter. *)
Inductive failure : Type :=
| HTTPError
| ReadTimeout
| ConnectionError
| PyError (e : exn).

(** [Running]: the bound on the turns of a [while True] loop was reached
    with the loop still going. *)
Inductive outcome (A : Type) : Type :=
| Returned (a : A)
| Failed (f : failure)
| Running.

Arguments Returned {A} a.
Arguments Failed {A} f.
Arguments Running {A}.

(** A computation that talks to the outside: [W] is the state of the
    outside, which keeps what was done also when the computation fails. *)
Definition io (W A : Type) : Type := W -> outcome A * W.

Definition io_ret {W A : Type} (a : A) : io W A := fun w => (Returned a, w).

Definition io_bind {W A B : Type} (c : io W A) (k : A -> io W B) : io W B :=
  fun w =>
    match c w with
    | (Returned a, w') => k a w'
    | (Failed f, w') => (Failed f, w')
    | (Running, w') => (Running, w')
    end.

Definition io_lift {W A : Type} (r : result A) : io W A :=
  fun w =>
    (match r with
     | Ok a => Returned a
     | Raise e => Failed (PyError e)
     end, w).

Notation "x <~ c ;; k" := (io_bind c (fun x => k))
  (at level 61, c at next level, right associativity).
Notation "' pat <~ c ;; k" := (io_bind c (fun x => match x with pat => k end))
  (at level 61, pat pattern, c at next level, right associativity).

(** [for x in l: body(x)] *)
Fixpoint for_each {W A : Type} (body : A -> io W unit) (l : list A)
    : io W unit :=
  match l with
  | [] => io_ret tt
  | x :: xs => _ <~ body x ;; for_each body xs
  end.

(** [try: ... except ReadTimeout / ConnectionError / Exception: print(...)]
    as both [main] have it: every failure ends the body and is swallowed
    (what is printed is left out). *)
Definition try_except {W : Type} (body : io W unit) : io W unit :=
  fun w =>
    match body w with
    | (Failed _, w') => (Returned tt, w')
    | r => r
    end.

(** ** seller.py: the calls to Ozon *)

Module Ozon.

(** An element of ["items"]; of its keys only ["offer_id"] is read. *)
Record product : Type := {
  product_offer_id : string
}.

(** The ["result"] of a product-list response. *)
Record listing : Type := {
  listing_items : list product;
  listing_total : Z;
  listing_last_id : string
}.

(** The requests sent, with what varies in their payload (credentials and
    the fixed fields are the same in every request of a run). *)
Inductive request : Type :=
| ProductList (last_id : string)
| ImportStocks (stocks : list Seller.stock_item)
| ImportPrices (prices : list Seller.price_item).

(** The marketplace: what it answers to a request, given the requests made
    before. *)
Record server : Type := {
  product_list : list request -> string -> failure + listing;
  import_stocks : list request -> list Seller.stock_item -> option failure;
  import_prices : list request -> list Seller.price_item -> option failure
}.

Definition get_product_list (srv : server) (last_id : string)
    : io (list request) listing :=
  fun sent =>
    (match product_list srv sent last_id with
     | inr result => Returned result
     | inl f => Failed f
     end, sent ++ [ProductList last_id]).

Definition update_price (srv : server) (prices : list Seller.price_item)
    : io (list request) unit :=
  fun sent =>
    (match import_prices srv sent prices with
     | None => Returned tt
     | Some f => Failed f
     end, sent ++ [ImportPrices prices]).

Definition update_stocks (srv : server) (stocks : list Seller.stock_item)
    : io (list request) unit :=
  fun sent =>
    (match import_stocks srv sent stocks with
     | None => Returned tt
     | Some f => Failed f
     end, sent ++ [ImportStocks stocks]).

(** The [while True] loop of [get_offer_ids], at most [fuel] turns of it. *)
Fixpoint fetch_products (srv : server) (fuel : nat) (last_id : string)
    (product_list : list product) : io (list request) (list product) :=
  match fuel with
  | O => fun sent => (Running, sent)
  | S fuel =>
      some_prod <~ get_product_list srv last_id ;;
      let product_list := product_list ++ listing_items some_prod in
      let total := listing_total some_prod in
      let last_id := listing_last_id some_prod in
      if total =? Z.of_nat (List.length product_list) then io_ret product_list
      else fetch_products srv fuel last_id product_list
  end.

Definition get_offer_ids (srv : server) (fuel : nat)
    : io (list request) (list string) :=
  product_list <~ fetch_products srv fuel "" [] ;;
  io_ret (fold_left
            (fun offer_ids product => offer_ids ++ [product_offer_id product])
            product_list []).

(** The body of the coroutine [upload_prices]. *)
Definition upload_prices (srv : server) (fuel : nat)
    (watch_remnants : list watch)
    : io (list request) (list Seller.price_item) :=
  offer_ids <~ get_offer_ids srv fuel ;;
  prices <~ io_lift (Seller.create_prices watch_remnants offer_ids) ;;
  batches <~ io_lift (divide prices 1000) ;;
  _ <~ for_each (update_price srv) batches ;;
  io_ret prices.

(** The body of the coroutine [upload_stocks]. *)
Definition upload_stocks (srv : server) (fuel : nat)
    (watch_remnants : list watch)
    : io (list request) (list Seller.stock_item * list Seller.stock_item) :=
  offer_ids <~ get_offer_ids srv fuel ;;
  '(stocks, offer_ids) <~
     io_lift (Seller.create_stocks watch_remnants offer_ids) ;;
  batches <~ io_lift (divide stocks 100) ;;
  _ <~ for_each (update_stocks srv) batches ;;
  let not_empty :=
    filter (fun stock => negb (Seller.stock stock =? 0)) stocks in
  io_ret (not_empty, stocks).

(** [main], from the first statement of its [try]; [download] is what
    [download_stock()] ends with. *)
Definition main (srv : server) (fuel : nat)
    (download : failure + list watch) : io (list request) unit :=
  try_except
    (offer_ids <~ get_offer_ids srv fuel ;;
     watch_remnants <~ (fun sent =>
                          (match download with
                           | inr feed => Returned feed
                           | inl f => Failed f
                           end, sent)) ;;
     '(stocks, offer_ids) <~
        io_lift (Seller.create_stocks watch_remnants offer_ids) ;;
     stock_batches <~ io_lift (divide stocks 100) ;;
     _ <~ for_each (update_stocks srv) stock_batches ;;
     prices <~ io_lift (Seller.create_prices watch_remnants offer_ids) ;;
     price_batches <~ io_lift (divide prices 900) ;;
     for_each (update_price srv) price_batches).

End Ozon.

(** ** market.py: the calls to Yandex.Market *)

Module Yandex.

(** An element of ["offerMappingEntries"]; only [offer.shopSku] is read. *)
Record entry : Type := {
  shopSku : string
}.

(** The ["result"] of an offer-mapping response; [nextPageToken] is [None]
    when ["paging"] has no such key. *)
Record listing : Type := {
  offerMappingEntries : list entry;
  nextPageToken : option string
}.

Inductive request : Type :=
| OfferMappingEntries (campaign_id page_token : string)
| PutStocks (campaign_id : string) (skus : list Market.sku_stock)
| PostPrices (campaign_id : string) (offers : list Market.offer_price).

Record server : Type := {
  offer_mapping_entries : list request -> string -> string -> failure + listing;
  put_stocks : list request -> string -> list Market.sku_stock
               -> option failure;
  post_prices : list request -> string -> list Market.offer_price
                -> option failure
}.

(** The outside of market.py: the requests sent and the wall clock. *)
Record world : Type := {
  sent : list request;
  now : Market.clock
}.

Definition send (w : world) (r : request) : world :=
  {| sent := sent w ++ [r]; now := now w |}.

Definition get_product_list (srv : server) (page campaign_id : string)
    : io world listing :=
  fun w =>
    (match offer_mapping_entries srv (sent w) campaign_id page with
     | inr result => Returned result
     | inl f => Failed f
     end, send w (OfferMappingEntries campaign_id page)).

Definition update_stocks (srv : server) (stocks : list Market.sku_stock)
    (campaign_id : string) : io world unit :=
  fun w =>
    (match put_stocks srv (sent w) campaign_id stocks with
     | None => Returned tt
     | Some f => Failed f
     end, send w (PutStocks campaign_id stocks)).

Definition update_price (srv : server) (prices : list Market.offer_price)
    (campaign_id : string) : io world unit :=
  fun w =>
    (match post_prices srv (sent w) campaign_id prices with
     | None => Returned tt
     | Some f => Failed f
     end, send w (PostPrices campaign_id prices)).

(** The [while True] loop of [get_offer_ids], at most [fuel] turns of it;
    [not page] holds of [None] and of the empty text. *)
Fixpoint fetch_entries (srv : server) (fuel : nat) (campaign_id page : string)
    (product_list : list entry) : io world (list entry) :=
  match fuel with
  | O => fun w => (Running, w)
  | S fuel =>
      some_prod <~ get_product_list srv page campaign_id ;;
      let product_list := product_list ++ offerMappingEntries some_prod in
      match nextPageToken some_prod with
      | None => io_ret product_list
      | Some page =>
          if String.eqb page "" then io_ret product_list
          else fetch_entries srv fuel campaign_id page product_list
      end
  end.

Definition get_offer_ids (srv : server) (fuel : nat) (campaign_id : string)
    : io world (list string) :=
  product_list <~ fetch_entries srv fuel campaign_id "" [] ;;
  io_ret (fold_left (fun offer_ids product => offer_ids ++ [shopSku product])
                    product_list []).

(** [create_stocks], reading the clock of the world. *)
Definition create_stocks (watch_remnants : list watch)
    (offer_ids : list string) (warehouse_id : string)
    : io world (list Market.sku_stock * list string) :=
  fun w =>
    let '(r, c) :=
      Market.create_stocks watch_remnants offer_ids warehouse_id (now w) in
    io_lift r {| sent := sent w; now := c |}.

(** The body of the coroutine [upload_prices]. *)
Definition upload_prices (srv : server) (fuel : nat)
    (watch_remnants : list watch) (campaign_id : string)
    : io world (list Market.offer_price) :=
  offer_ids <~ get_offer_ids srv fuel campaign_id ;;
  prices <~ io_lift (Market.create_prices watch_remnants offer_ids) ;;
  batches <~ io_lift (divide prices 500) ;;
  _ <~ for_each (fun some_prices => update_price srv some_prices campaign_id)
                batches ;;
  io_ret prices.

(** [list(filter(lambda stock: stock.get("items")[0].get("count") != 0,
    stocks))] *)
Fixpoint not_empty_stocks (stocks : list Market.sku_stock)
    : result (list Market.sku_stock) :=
  match stocks with
  | [] => Ok []
  | stock :: rest =>
      item <- py_first (Market.items stock) ;;
      kept <- not_empty_stocks rest ;;
      Ok (if negb (Market.count item =? 0) then stock :: kept else kept)
  end.

(** The body of the coroutine [upload_stocks]. *)
Definition upload_stocks (srv : server) (fuel : nat)
    (watch_remnants : list watch) (campaign_id warehouse_id : string)
    : io world (list Market.sku_stock * list Market.sku_stock) :=
  offer_ids <~ get_offer_ids srv fuel campaign_id ;;
  '(stocks, offer_ids) <~
     create_stocks watch_remnants offer_ids warehouse_id ;;
  batches <~ io_lift (divide stocks 2000) ;;
  _ <~ for_each (fun some_stock => update_stocks srv some_stock campaign_id)
                batches ;;
  not_empty <~ io_lift (not_empty_stocks stocks) ;;
  io_ret (not_empty, stocks).

(** One half of the [try] of [main]: the stock update of a campaign.  The
    statement [upload_prices(...)] that follows it only builds a coroutine,
    which [main], not being a coroutine itself, never awaits: its body does
    not run. *)
Definition sync_campaign (srv : server) (fuel : nat)
    (watch_remnants : list watch) (campaign_id warehouse_id : string)
    : io world unit :=
  offer_ids <~ get_offer_ids srv fuel campaign_id ;;
  '(stocks, offer_ids) <~
     create_stocks watch_remnants offer_ids warehouse_id ;;
  batches <~ io_lift (divide stocks 2000) ;;
  _ <~ for_each (fun some_stock => update_stocks srv some_stock campaign_id)
                batches ;;
  let _ := upload_prices srv fuel watch_remnants campaign_id in
  io_ret tt.

(** [main], from its [try], with the feed [download_stock()] returned. *)
Definition main (srv : server) (fuel : nat) (watch_remnants : list watch)
    (campaign_fbs_id campaign_dbs_id warehouse_fbs_id warehouse_dbs_id : string)
    : io world unit :=
  try_except
    (_ <~ sync_campaign srv fuel watch_remnants
                        campaign_fbs_id warehouse_fbs_id ;;
     sync_campaign srv fuel watch_remnants campaign_dbs_id warehouse_dbs_id).

End Yandex.

(** ** Vocabulary of the calls *)

(** [sent'] is [sent] followed by further requests, each satisfying [P]. *)
Definition extends {Q : Type} (P : Q -> Prop) (sent sent' : list Q) : Prop :=
  exists new, sent' = sent ++ new /\ Forall P new.

(** The marketplace answers the successive product-list requests of a run,
    the first with [last_id] after the requests [sent], with [pages]. *)
Fixpoint ozon_serves (srv : Ozon.server) (sent : list Ozon.request)
    (last_id : string) (pages : list Ozon.listing) : Prop :=
  match pages with
  | [] => True
  | p :: ps =>
      Ozon.product_list srv sent last_id = inr p /\
      ozon_serves srv (sent ++ [Ozon.ProductList last_id])
                  (Ozon.listing_last_id p) ps
  end.

(** The product-list requests that fetch [pages]: each carries the
    [last_id] of the page before it. *)
Fixpoint ozon_requests (last_id : string) (pages : list Ozon.listing)
    : list Ozon.request :=
  match pages with
  | [] => []
  | p :: ps => Ozon.ProductList last_id
               :: ozon_requests (Ozon.listing_last_id p) ps
  end.

Definition ozon_products (pages : list Ozon.listing) : list Ozon.product :=
  flat_map Ozon.listing_items pages.

(** After none of [pages] does the number of products fetched so far,
    [count] before the first of them, equal the total that page states. *)
Fixpoint ozon_unfinished (count : nat) (pages : list Ozon.listing) : Prop :=
  match pages with
  | [] => True
  | p :: ps =>
      let count := (count + List.length (Ozon.listing_items p))%nat in
      Ozon.listing_total p <> Z.of_nat count /\ ozon_unfinished count ps
  end.

Definition ozon_is_listing (r : Ozon.request) : Prop :=
  match r with
  | Ozon.ProductList _ => True
  | _ => False
  end.

Definition ozon_not_prices (r : Ozon.request) : Prop :=
  match r with
  | Ozon.ImportPrices _ => False
  | _ => True
  end.

(** The token a page hands on; the empty text when it hands on none. *)
Definition yandex_token (p : Yandex.listing) : string :=
  match Yandex.nextPageToken p with
  | Some t => t
  | None => EmptyString
  end.

Fixpoint yandex_serves (srv : Yandex.server) (sent : list Yandex.request)
    (campaign_id page_token : string) (pages : list Yandex.listing) : Prop :=
  match pages with
  | [] => True
  | p :: ps =>
      Yandex.offer_mapping_entries srv sent campaign_id page_token = inr p /\
      yandex_serves srv
                    (sent ++ [Yandex.OfferMappingEntries campaign_id page_token])
                    campaign_id (yandex_token p) ps
  end.

Fixpoint yandex_requests (campaign_id page_token : string)
    (pages : list Yandex.listing) : list Yandex.request :=
  match pages with
  | [] => []
  | p :: ps => Yandex.OfferMappingEntries campaign_id page_token
               :: yandex_requests campaign_id (yandex_token p) ps
  end.

Definition yandex_entries (pages : list Yandex.listing) : list Yandex.entry :=
  flat_map Yandex.offerMappingEntries pages.

(** A request of the stock update of the campaign [campaign_id]: a page of
    its offers or a batch of its stocks, never a price update. *)
Definition yandex_stock_sync (campaign_id : string) (r : Yandex.request)
    : Prop :=
  match r with
  | Yandex.OfferMappingEntries c _ => c = campaign_id
  | Yandex.PutStocks c _ => c = campaign_id
  | Yandex.PostPrices _ _ => False
  end.

(** Worked servers: Ozon lists three products on two pages, Yandex two
    offers on two pages; both accept every update. *)
Definition ozon_page_1 : Ozon.listing :=
  {| Ozon.listing_items := [{| Ozon.product_offer_id := "48852" |};
                            {| Ozon.product_offer_id := "70001" |}];
     Ozon.listing_total := 3;
     Ozon.listing_last_id := "p2" |}.

Definition ozon_page_2 : Ozon.listing :=
  {| Ozon.listing_items := [{| Ozon.product_offer_id := "99999" |}];
     Ozon.listing_total := 3;
     Ozon.listing_last_id := EmptyString |}.

Definition ozon_demo : Ozon.server :=
  {| Ozon.product_list := fun _ last_id =>
       if String.eqb last_id EmptyString then inr ozon_page_1
       else inr ozon_page_2;
     Ozon.import_stocks := fun _ _ => None;
     Ozon.import_prices := fun _ _ => None |}.

(** Ozon answering the second request with a timeout, and Ozon stating a
    total below the size of its page. *)
Definition ozon_timeout : Ozon.server :=
  {| Ozon.product_list := fun _ last_id =>
       if String.eqb last_id EmptyString then inr ozon_page_1
       else inl ReadTimeout;
     Ozon.import_stocks := fun _ _ => None;
     Ozon.import_prices := fun _ _ => None |}.

Definition ozon_page_over : Ozon.listing :=
  {| Ozon.listing_items := [{| Ozon.product_offer_id := "48852" |};
                            {| Ozon.product_offer_id := "99999" |}];
     Ozon.listing_total := 1;
     Ozon.listing_last_id := "p2" |}.

Definition ozon_over : Ozon.server :=
  {| Ozon.product_list := fun _ _ => inr ozon_page_over;
     Ozon.import_stocks := fun _ _ => None;
     Ozon.import_prices := fun _ _ => None |}.

Definition yandex_page_1 : Yandex.listing :=
  {| Yandex.offerMappingEntries := [{| Yandex.shopSku := "48852" |}];
     Yandex.nextPageToken := Some "t1" |}.

Definition yandex_page_2 : Yandex.listing :=
  {| Yandex.offerMappingEntries := [{| Yandex.shopSku := "99999" |}];
     Yandex.nextPageToken := None |}.

Definition yandex_demo : Yandex.server :=
  {| Yandex.offer_mapping_entries := fun _ _ page_token =>
       if String.eqb page_token EmptyString then inr yandex_page_1
       else inr yandex_page_2;
     Yandex.put_stocks := fun _ _ _ => None;
     Yandex.post_prices := fun _ _ _ => None |}.

(** Yandex.Market handing on a token with every page. *)
Definition yandex_endless : Yandex.server :=
  {| Yandex.offer_mapping_entries := fun _ _ _ => inr yandex_page_1;
     Yandex.put_stocks := fun _ _ _ => None;
     Yandex.post_prices := fun _ _ _ => None |}.

(** Ozon refusing every stock batch. *)
Definition ozon_refusing : Ozon.server :=
  {| Ozon.product_list := fun _ last_id =>
       if String.eqb last_id EmptyString then inr ozon_page_1
       else inr ozon_page_2;
     Ozon.import_stocks := fun _ _ => Some HTTPError;
     Ozon.import_prices := fun _ _ => None |}.

Definition world_0 : Yandex.world :=
  {| Yandex.sent := []; Yandex.now := clock_0 |}.

(** ** Text and numbers *)

Section TextFacts.

Lemma digit_value_nonneg (a : ascii) : is_digit a = true -> 0 <= digit_value a.
Proof.
  unfold is_digit, digit_value. intros H.
  apply andb_prop in H as [H _]. apply Nat.leb_le in H. lia.
Qed.

Lemma digit_not_space (a : ascii) : is_digit a = true -> is_space a = false.
Proof.
  unfold is_digit, is_space. intros H.
  apply andb_prop in H as [H1 H2].
  apply Nat.leb_le in H1. apply Nat.leb_le in H2.
  apply orb_false_intro.
  - apply andb_false_intro2. apply Nat.leb_gt. lia.
  - apply Nat.eqb_neq. lia.
Qed.

Lemma digit_not_char (a c : ascii) :
  is_digit a = true -> is_digit c = false -> Ascii.eqb a c = false.
Proof.
  intros Ha Hc. destruct (Ascii.eqb_spec a c) as [->|]; congruence.
Qed.

Lemma first_piece (s : string) :
  py_first (py_split "." s) = Ok (before_first_dot s).
Proof.
  induction s as [|a r IH]; simpl; [reflexivity|].
  destruct (Ascii.eqb a "."); [reflexivity|].
  destruct (py_split "." r) as [|piece pieces]; simpl in *.
  - discriminate IH.
  - injection IH as ->. reflexivity.
Qed.

Lemma re_sub_digits_only (s : string) : re_sub_non_digits s = digits_only s.
Proof.
  unfold digits_only.
  induction s as [|a r IH]; simpl; [reflexivity|].
  destruct (is_digit a); simpl; now rewrite IH.
Qed.

Lemma price_conversion_text (p : string) :
  price_conversion (PyStr p) = Ok (digits_only (before_first_dot p)).
Proof.
  unfold price_conversion. rewrite first_piece. simpl.
  now rewrite re_sub_digits_only.
Qed.

Lemma digits_only_all_digits (s : string) : all_digits (digits_only s) = true.
Proof.
  unfold all_digits, digits_only.
  rewrite list_ascii_of_string_of_list_ascii.
  apply forallb_forall. intros a Ha. now apply filter_In in Ha.
Qed.

Lemma parse_digits_text (s : string) :
  forall (after_digit : bool) (acc : Z),
    all_digits s = true ->
    (s <> EmptyString \/ after_digit = true) ->
    parse_digits after_digit acc s
    = Some (fold_left (fun acc a => 10 * acc + digit_value a)
                      (list_ascii_of_string s) acc).
Proof.
  unfold all_digits.
  induction s as [|a r IH]; intros b acc Hd Hne; simpl in *.
  - destruct Hne as [Hne | ->]; [congruence | reflexivity].
  - apply andb_prop in Hd as [Ha Hr]. rewrite Ha.
    apply IH; auto.
Qed.

Lemma parse_int_digits (s : string) :
  all_digits s = true -> s <> EmptyString -> parse_int s = Some (base10 s).
Proof.
  intros Hd Hne. unfold parse_int, base10.
  destruct s as [|a r]; [congruence|].
  assert (Ha : is_digit a = true).
  { unfold all_digits in Hd. simpl in Hd. now apply andb_prop in Hd. }
  simpl lstrip. rewrite (digit_not_space _ Ha).
  rewrite (digit_not_char a "-" Ha eq_refl), (digit_not_char a "+" Ha eq_refl).
  rewrite parse_digits_text; auto.
Qed.

(** *** Text of ASCII characters is its own image *)

Lemma digit_is_ascii (a : ascii) :
  is_digit a = true -> (nat_of_ascii a <? 128)%nat = true.
Proof.
  unfold is_digit. intros H. apply andb_prop in H as [_ H].
  apply Nat.leb_le in H. apply Nat.ltb_lt. lia.
Qed.

Lemma all_digits_ascii (s : string) :
  all_digits s = true -> ascii_text s = true.
Proof.
  unfold all_digits, ascii_text. rewrite !forallb_forall.
  intros H a Ha. apply digit_is_ascii. auto.
Qed.

Lemma ascii_image_ascii (s : string) :
  ascii_text s = true -> ascii_image None s = Some s.
Proof.
  unfold ascii_text.
  induction s as [|a r IH];
    cbn [ascii_image list_ascii_of_string forallb]; [reflexivity|].
  intros H. apply andb_prop in H as [Ha Hr]. apply Nat.ltb_lt in Ha.
  cbv zeta.
  replace (Z.of_nat (nat_of_ascii a) <? 128) with true
    by (symmetry; apply Z.ltb_lt; lia).
  now rewrite (IH Hr).
Qed.

Lemma count_digits_all_digits (s : string) :
  all_digits s = true -> count_digits s = Z.of_nat (String.length s).
Proof.
  unfold all_digits.
  induction s as [|a r IH];
    cbn [count_digits list_ascii_of_string forallb String.length];
    [reflexivity|].
  intros H. apply andb_prop in H as [Ha Hr]. rewrite Ha, (IH Hr). lia.
Qed.

(** [int] of a text of decimal digits: their number, when they are at most
    4300. *)
Lemma int_of_digits (s : string) :
  all_digits s = true -> s <> EmptyString ->
  int_of_str s
  = if int_max_str_digits <? Z.of_nat (String.length s)
    then Raise ValueError else Ok (base10 s).
Proof.
  intros Hd Hne. unfold int_of_str.
  rewrite (@ascii_image_ascii s (@all_digits_ascii s Hd)).
  rewrite (@parse_int_digits s Hd Hne), (@count_digits_all_digits s Hd).
  reflexivity.
Qed.

Lemma int_of_empty : int_of_str EmptyString = Raise ValueError.
Proof. reflexivity. Qed.

Lemma parse_digits_nonneg (s : string) :
  forall (after_digit : bool) (acc n : Z),
    0 <= acc -> parse_digits after_digit acc s = Some n -> 0 <= n.
Proof.
  induction s as [|a r IH]; intros b acc n Hacc H; cbn [parse_digits] in H.
  - destruct b; [injection H as <-; assumption | discriminate].
  - destruct (is_digit a) eqn:Ha.
    + apply IH in H; [assumption|].
      pose proof (digit_value_nonneg _ Ha). lia.
    + destruct (Ascii.eqb a "_").
      * destruct b; [|discriminate]. now apply IH in H.
      * destruct (is_space a); [|discriminate].
        destruct (b && all_space r); [|discriminate].
        now injection H as <-.
Qed.

Lemma no_minus_lstrip (s : string) :
  no_minus s = true -> no_minus (lstrip s) = true.
Proof.
  unfold no_minus.
  induction s as [|a r IH]; simpl; [reflexivity|].
  intros H. destruct (is_space a); simpl; [|assumption].
  apply andb_prop in H as [_ H]. auto.
Qed.

Lemma parse_int_nonneg (s : string) (n : Z) :
  no_minus s = true -> parse_int s = Some n -> 0 <= n.
Proof.
  intros Hm. apply no_minus_lstrip in Hm. unfold parse_int.
  destruct (lstrip s) as [|a r]; [discriminate|].
  unfold no_minus in Hm. simpl in Hm. apply andb_prop in Hm as [Ha _].
  apply negb_true_iff in Ha. rewrite Ha.
  destruct (Ascii.eqb a "+"); apply parse_digits_nonneg; lia.
Qed.

(** [str(z)] of an integer carries a minus sign exactly when [z < 0]. *)
Lemma str_int_no_minus (z : Z) :
  no_minus (py_str (PyInt z)) = true -> 0 <= z.
Proof.
  destruct z as [|q|q]; simpl; intros H; try lia.
  unfold no_minus in H. simpl in H. discriminate.
Qed.

Lemma str_int_one (z : Z) : py_str (PyInt z) = "1" <-> z = 1.
Proof.
  split; [|intros ->; reflexivity].
  simpl. intros H.
  change "1" with (NilZero.string_of_int (Z.to_int 1)) in H.
  assert (E : NilZero.int_of_string (NilZero.string_of_int (Z.to_int z))
              = NilZero.int_of_string (NilZero.string_of_int (Z.to_int 1)))
    by now rewrite H.
  rewrite !NilZero.isi in E.
  - injection E as E. apply (f_equal Z.of_int) in E.
    now rewrite !DecimalZ.of_to in E.
  - discriminate.
  - discriminate.
  - destruct z; simpl; try discriminate.
    intros E0. pose proof (DecimalPos.Unsigned.to_uint_nonnil p). congruence.
  - destruct z; simpl; try discriminate.
Qed.

(** *** The image of a text holds no minus sign the text does not hold *)

Lemma unicode_decimal_digit (cp d : Z) :
  unicode_decimal cp = Some d -> is_digit (digit_char d) = true.
Proof.
  unfold unicode_decimal.
  destruct (find _ unicode_decimal_runs) as [run|]; [|discriminate].
  intros [= <-].
  pose proof (Z.mod_pos_bound (cp - fst run) 10 ltac:(lia)) as B.
  set (d := (cp - fst run) mod 10) in *.
  assert (Hd : exists k, (k < 10)%nat /\ d = Z.of_nat k)
    by (exists (Z.to_nat d); lia).
  destruct Hd as [k [Hk ->]]. unfold digit_char. rewrite Nat2Z.id.
  do 10 (destruct k as [|k]; [reflexivity|]). lia.
Qed.

Lemma ascii_of_code_point_cases (cp : Z) (c : ascii) :
  ascii_of_code_point cp = Some c -> c = " "%char \/ is_digit c = true.
Proof.
  unfold ascii_of_code_point.
  destruct (unicode_space cp); [intros [= <-]; now left|].
  destruct (unicode_decimal cp) as [d|] eqn:E; [|discriminate].
  intros [= <-]. right. eapply unicode_decimal_digit; eassumption.
Qed.

Lemma ascii_of_code_point_no_minus (cp : Z) (c : ascii) :
  ascii_of_code_point cp = Some c -> negb (Ascii.eqb c "-") = true.
Proof.
  intros H. apply ascii_of_code_point_cases in H as [->|H]; [reflexivity|].
  now rewrite (digit_not_char c "-" H eq_refl).
Qed.

Lemma ascii_image_no_minus (s : string) :
  forall (st : option pending) (a : string),
    ascii_image st s = Some a -> no_minus s = true -> no_minus a = true.
Proof.
  unfold no_minus.
  induction s as [|c r IH]; intros st a H Hm; cbn [ascii_image] in H.
  - destruct st; [discriminate|]. now injection H as <-.
  - cbn [list_ascii_of_string forallb] in Hm.
    apply andb_prop in Hm as [Hc Hr]. cbv zeta in H.
    assert (Last : forall p : pending,
               (if valid_code_point
                     (bits p * 64 + (Z.of_nat (nat_of_ascii c) - 128))
                     (least p)
                then match ascii_of_code_point
                             (bits p * 64 + (Z.of_nat (nat_of_ascii c) - 128))
                     with
                     | Some c0 => option_map (String c0) (ascii_image None r)
                     | None => None
                     end
                else None) = Some a ->
               forallb (fun a0 => negb (Ascii.eqb a0 "-"))
                       (list_ascii_of_string a) = true).
    { intros p H0.
      destruct (valid_code_point _ _); [|discriminate].
      destruct (ascii_of_code_point _) as [c0|] eqn:E0; [|discriminate].
      destruct (ascii_image None r) as [a'|] eqn:E'; [|discriminate].
      injection H0 as <-. cbn [list_ascii_of_string forallb].
      rewrite (@ascii_of_code_point_no_minus _ c0 E0). simpl.
      eapply IH; eassumption. }
    destruct st as [p|].
    + destruct ((128 <=? Z.of_nat (nat_of_ascii c))
                && (Z.of_nat (nat_of_ascii c) <=? 191)); [|discriminate].
      destruct (due p) as [|[|k]]; [now apply (Last p) | now apply (Last p) |].
      eapply IH; eassumption.
    + destruct (Z.of_nat (nat_of_ascii c) <? 128).
      * destruct (ascii_image None r) as [a'|] eqn:E'; [|discriminate].
        injection H as <-. cbn [list_ascii_of_string forallb].
        rewrite Hc. simpl. eapply IH; eassumption.
      * destruct (lead_byte _) as [q|]; [|discriminate].
        eapply IH; eassumption.
Qed.

Lemma int_of_str_nonneg (s : string) (n : Z) :
  no_minus s = true -> int_of_str s = Ok n -> 0 <= n.
Proof.
  unfold int_of_str. intros Hm H.
  destruct (ascii_image None s) as [a|] eqn:Ea; [|discriminate].
  destruct (parse_int a) as [z|] eqn:Ez; [|discriminate].
  destruct (int_max_str_digits <? count_digits a); [discriminate|].
  injection H as <-.
  eapply parse_int_nonneg; [|eassumption].
  eapply ascii_image_no_minus; eassumption.
Qed.

Lemma int_of_str_raises (t : string) (e : exn) :
  int_of_str t = Raise e -> e = ValueError.
Proof.
  unfold int_of_str.
  destruct (ascii_image None t) as [a|]; [|congruence].
  destruct (parse_int a); [|congruence].
  destruct (int_max_str_digits <? count_digits a); congruence.
Qed.

(** *** The digit loop reads the grouped digits, and nothing else *)

Lemma space_not_digit (a : ascii) : is_space a = true -> is_digit a = false.
Proof.
  intros H. destruct (is_digit a) eqn:E; [|reflexivity].
  rewrite (digit_not_space _ E) in H. discriminate.
Qed.

Lemma space_not_char (a c : ascii) :
  is_space a = true -> is_space c = false -> Ascii.eqb a c = false.
Proof.
  intros Ha Hc. destruct (Ascii.eqb_spec a c) as [->|]; congruence.
Qed.

Lemma parse_digits_trail (s : string) (acc : Z) :
  all_space s = true -> parse_digits true acc s = Some acc.
Proof.
  destruct s as [|a r]; [reflexivity|]. cbn [all_space parse_digits].
  intros H. apply andb_prop in H as [Ha Hr].
  rewrite (@space_not_digit a Ha), (@space_not_char a "_" Ha eq_refl), Ha, Hr.
  reflexivity.
Qed.

Lemma parse_digits_complete (body : string) (ds : list ascii) :
  grouped body ds ->
  forall (trail : string) (after_digit : bool) (acc : Z),
    all_space trail = true ->
    parse_digits after_digit acc (body ++ trail)%string
    = Some (fold_left (fun acc a => 10 * acc + digit_value a) ds acc).
Proof.
  induction 1 as [c Hc | c r ds Hc Hr IH | c r ds Hc Hr IH];
    intros trail b acc Ht;
    cbn [String.append parse_digits fold_left]; rewrite Hc.
  - now apply parse_digits_trail.
  - now apply IH.
  - change (is_digit "_") with false. change (Ascii.eqb "_" "_") with true.
    cbv iota. now apply IH.
Qed.

Lemma parse_digits_sound (s : string) :
  forall (after_digit : bool) (acc n : Z),
    parse_digits after_digit acc s = Some n ->
    (after_digit = true /\ all_space s = true /\ n = acc) \/
    exists (body trail : string) (ds : list ascii),
      grouped body ds /\ all_space trail = true /\
      n = fold_left (fun acc a => 10 * acc + digit_value a) ds acc /\
      (s = (body ++ trail)%string \/
       after_digit = true /\ s = String "_" (body ++ trail)).
Proof.
  induction s as [|a r IH]; intros b acc n H; cbn [parse_digits] in H.
  - destruct b; [|discriminate]. injection H as <-. now left.
  - destruct (is_digit a) eqn:Ha.
    + right. apply IH in H as [[_ [Hs ->]] | [body [trail [ds [G [T [-> S]]]]]]].
      * exists (String a EmptyString), r, [a].
        split; [now constructor|]. split; [assumption|].
        split; [reflexivity|]. now left.
      * destruct S as [-> | [_ ->]].
        -- exists (String a body), trail, (a :: ds).
           split; [now constructor|]. split; [assumption|].
           split; [reflexivity|]. now left.
        -- exists (String a (String "_" body)), trail, (a :: ds).
           split; [now apply grouped_underscore|]. split; [assumption|].
           split; [reflexivity|]. now left.
    + destruct (Ascii.eqb_spec a "_") as [->|Hu].
      * destruct b; [|discriminate]. right.
        apply IH in H as [[F _] | [body [trail [ds [G [T [-> S]]]]]]];
          [discriminate|].
        destruct S as [-> | [F _]]; [|discriminate].
        exists body, trail, ds. repeat (split; [assumption || reflexivity|]).
        right. now split.
      * destruct (is_space a) eqn:Hs; [|discriminate].
        destruct b; [|discriminate]. simpl in H.
        destruct (all_space r) eqn:Hr; [|discriminate].
        injection H as <-. left. cbn [all_space]. rewrite Hs, Hr. auto.
Qed.

Lemma lstrip_split (s : string) :
  exists lead : string, s = (lead ++ lstrip s)%string /\ all_space lead = true.
Proof.
  induction s as [|a r [lead [E L]]]; [now exists EmptyString|].
  cbn [lstrip]. destruct (is_space a) eqn:Ha.
  - exists (String a lead). cbn [String.append all_space].
    rewrite Ha, L. split; [now rewrite <- E | reflexivity].
  - now exists EmptyString.
Qed.

Lemma lstrip_lead (lead s : string) :
  all_space lead = true -> lstrip (lead ++ s)%string = lstrip s.
Proof.
  induction lead as [|a r IH]; cbn [String.append all_space lstrip];
    [reflexivity|].
  intros H. apply andb_prop in H as [Ha Hr]. rewrite Ha. auto.
Qed.

Lemma grouped_head (body : string) (ds : list ascii) :
  grouped body ds ->
  exists (c : ascii) (r : string), body = String c r /\ is_digit c = true.
Proof. destruct 1; eauto. Qed.

Lemma parse_int_sound (a : string) (z : Z) :
  parse_int a = Some z ->
  exists (lead sign body trail : string) (ds : list ascii),
    a = (lead ++ sign ++ body ++ trail)%string /\
    all_space lead = true /\ all_space trail = true /\
    (sign = EmptyString \/ sign = "+" \/ sign = "-") /\
    grouped body ds /\
    z = (if String.eqb sign "-" then - decimal_value ds
         else decimal_value ds).
Proof.
  unfold parse_int. destruct (lstrip_split a) as [lead [E L]].
  destruct (lstrip a) as [|c r] eqn:El; [discriminate|].
  assert (Body : forall (s : string) (n : Z),
             parse_digits false 0 s = Some n ->
             exists (body trail : string) (ds : list ascii),
               s = (body ++ trail)%string /\ all_space trail = true /\
               grouped body ds /\ n = decimal_value ds).
  { intros s n H.
    apply parse_digits_sound in H as [[F _] | [body [trail [ds [G [T [-> S]]]]]]];
      [discriminate|].
    destruct S as [-> | [F _]]; [|discriminate].
    exists body, trail, ds. auto. }
  destruct (Ascii.eqb_spec c "-") as [->|Hm].
  - destruct (parse_digits false 0 r) as [n|] eqn:En; [|discriminate].
    intros [= <-]. apply Body in En as [body [trail [ds [-> [T [G ->]]]]]].
    exists lead, "-"%string, body, trail, ds. rewrite E. auto 10.
  - destruct (Ascii.eqb_spec c "+") as [->|Hp].
    + intros En. apply Body in En as [body [trail [ds [-> [T [G ->]]]]]].
      exists lead, "+"%string, body, trail, ds. rewrite E. auto 10.
    + intros En. apply Body in En as [body [trail [ds [Es [T [G ->]]]]]].
      exists lead, EmptyString, body, trail, ds. rewrite E, Es. auto 10.
Qed.

Lemma parse_int_complete (lead sign body trail : string) (ds : list ascii) :
  all_space lead = true -> all_space trail = true ->
  sign = EmptyString \/ sign = "+" \/ sign = "-" ->
  grouped body ds ->
  parse_int (lead ++ sign ++ body ++ trail)%string
  = Some (if String.eqb sign "-" then - decimal_value ds
          else decimal_value ds).
Proof.
  intros L T S G. unfold parse_int. rewrite (@lstrip_lead lead _ L).
  pose proof (@parse_digits_complete body ds G trail false 0 T) as P.
  destruct S as [-> | [-> | ->]]; cbn [String.append lstrip].
  - destruct (@grouped_head body ds G) as [c [r [-> Hc]]].
    cbn [String.append lstrip] in *. rewrite (digit_not_space _ Hc).
    rewrite (digit_not_char c "-" Hc eq_refl),
            (digit_not_char c "+" Hc eq_refl).
    exact P.
  - change (is_space "+") with false. cbv iota.
    change (Ascii.eqb "+" "-") with false.
    change (Ascii.eqb "+" "+") with true. cbv iota. exact P.
  - change (is_space "-") with false. cbv iota.
    change (Ascii.eqb "-" "-") with true. cbv iota.
    rewrite P. reflexivity.
Qed.

Lemma count_digits_app (x y : string) :
  count_digits (x ++ y)%string = count_digits x + count_digits y.
Proof.
  induction x as [|a r IH]; cbn [String.append count_digits]; [reflexivity|].
  rewrite IH. lia.
Qed.

Lemma count_digits_space (s : string) :
  all_space s = true -> count_digits s = 0.
Proof.
  induction s as [|a r IH]; cbn [all_space count_digits]; [reflexivity|].
  intros H. apply andb_prop in H as [Ha Hr].
  rewrite (@space_not_digit a Ha), (IH Hr). reflexivity.
Qed.

Lemma count_digits_grouped (body : string) (ds : list ascii) :
  grouped body ds -> count_digits body = Z.of_nat (List.length ds).
Proof.
  induction 1 as [c Hc | c r ds Hc Hr IH | c r ds Hc Hr IH];
    cbn [count_digits List.length]; rewrite Hc.
  - reflexivity.
  - rewrite IH. lia.
  - change (is_digit "_") with false. rewrite IH. lia.
Qed.

Lemma count_digits_literal (lead sign body trail : string) (ds : list ascii) :
  all_space lead = true -> all_space trail = true ->
  sign = EmptyString \/ sign = "+" \/ sign = "-" ->
  grouped body ds ->
  count_digits (lead ++ sign ++ body ++ trail)%string
  = Z.of_nat (List.length ds).
Proof.
  intros L T S G. rewrite !count_digits_app.
  rewrite (@count_digits_space lead L), (@count_digits_space trail T),
          (@count_digits_grouped body ds G).
  destruct S as [-> | [-> | ->]]; cbn [count_digits];
    change (is_digit "+") with false; change (is_digit "-") with false; lia.
Qed.

(** [int] returns on the integer literals, with the integer they denote, and
    raises on every other text. *)
Lemma int_of_str_literal (t : string) (z : Z) :
  int_of_str t = Ok z <-> int_literal t z.
Proof.
  unfold int_of_str, int_literal. split.
  - destruct (ascii_image None t) as [a|]; [|discriminate].
    destruct (parse_int a) as [n|] eqn:En; [|discriminate].
    destruct (int_max_str_digits <? count_digits a) eqn:Cap; [discriminate|].
    intros [= <-].
    apply parse_int_sound in En
      as [lead [sign [body [trail [ds [-> [L [T [S [G ->]]]]]]]]]].
    rewrite (@count_digits_literal lead sign body trail ds L T S G) in Cap. apply Z.ltb_ge in Cap.
    exists lead, sign, body, trail, ds. auto 10.
  - intros [lead [sign [body [trail [ds [-> [L [T [S [G [Cap ->]]]]]]]]]]].
    rewrite (@parse_int_complete lead sign body trail ds L T S G),
            (@count_digits_literal lead sign body trail ds L T S G).
    apply Z.ltb_ge in Cap. now rewrite Cap.
Qed.

Lemma int_of_str_no_literal (t : string) :
  int_of_str t = Raise ValueError <-> ~ exists z, int_literal t z.
Proof.
  split.
  - intros H [z Hz]. apply int_of_str_literal in Hz. congruence.
  - intros H. destruct (int_of_str t) as [z|e] eqn:E.
    + exfalso. apply H. exists z. now apply int_of_str_literal.
    + now rewrite (@int_of_str_raises t e E).
Qed.

(** [int] on a few texts: Arabic-Indic and Devanagari digits, blanks, a
    sign and grouped digits are read; a doubled underscore, a decimal point,
    the minus sign U+2212 and 4301 digits are refused. *)
Lemma int_of_str_examples :
  int_of_str "٣" = Ok 3 /\
  int_of_str "१२" = Ok 12 /\
  int_of_str " +1_000 " = Ok 1000 /\
  int_of_str "-5" = Ok (-5) /\
  int_of_str "1__0" = Raise ValueError /\
  int_of_str "3.0" = Raise ValueError /\
  int_of_str "−5" = Raise ValueError /\
  int_of_str long_price = Raise ValueError.
Proof. vm_compute. repeat split; reflexivity. Qed.

End TextFacts.

(** ** Lists *)

Section ListFacts.

Lemma py_in_In (x : string) (l : list string) : py_in x l = true <-> In x l.
Proof.
  unfold py_in. rewrite existsb_exists. split.
  - intros [y [Hy E]]. apply String.eqb_eq in E. now subst.
  - intros H. exists x. split; [assumption | apply String.eqb_refl].
Qed.

Lemma py_in_false (x : string) (l : list string) :
  py_in x l = false <-> ~ In x l.
Proof.
  rewrite <- py_in_In. destruct (py_in x l); split; congruence.
Qed.

Lemma py_in_cons (x y : string) (l : list string) :
  py_in x (y :: l) = String.eqb x y || py_in x l.
Proof. reflexivity. Qed.

Lemma filter_filter_and {A : Type} (f g : A -> bool) (l : list A) :
  filter f (filter g l) = filter (fun x => g x && f x) l.
Proof.
  induction l as [|a l IH]; simpl; [reflexivity|].
  destruct (g a); simpl; [destruct (f a)|]; now rewrite IH.
Qed.

Lemma filter_id {A : Type} (f : A -> bool) (l : list A) :
  (forall x, In x l -> f x = true) -> filter f l = l.
Proof.
  intros H. rewrite (filter_ext_in f (fun _ => true) l H). apply filter_true.
Qed.

Lemma filter_split_perm {A : Type} (f : A -> bool) (l : list A) :
  Permutation (filter f l ++ filter (fun x => negb (f x)) l) l.
Proof.
  induction l as [|a l IH]; simpl; [constructor|].
  destruct (f a); simpl.
  - now constructor.
  - symmetry. apply Permutation_cons_app. now symmetry.
Qed.

(** On a duplicate-free list, [remove] deletes every element equal to its
    argument, there being one. *)
Lemma py_remove_nodup (x : string) (l : list string) :
  NoDup l -> py_in x l = true ->
  py_remove x l = Ok (filter (fun y => negb (String.eqb y x)) l).
Proof.
  induction l as [|y ys IH]; intros Hnd Hin; [discriminate|].
  inversion Hnd as [|? ? Hy Hys]; subst. simpl.
  destruct (String.eqb_spec y x) as [->|Hne]; simpl.
  - f_equal. symmetry. apply filter_id. intros z Hz.
    apply negb_true_iff. apply String.eqb_neq. congruence.
  - rewrite py_in_cons in Hin. apply orb_prop in Hin as [E|Hin].
    + apply String.eqb_eq in E. congruence.
    + now rewrite (IH Hys Hin).
Qed.

Lemma py_remove_total (x : string) (l : list string) :
  py_in x l = true -> exists l', py_remove x l = Ok l'.
Proof.
  induction l as [|y ys IH]; intros Hin; [discriminate|]. simpl.
  destruct (String.eqb_spec y x) as [->|Hne]; [now eexists|].
  rewrite py_in_cons in Hin. apply orb_prop in Hin as [E|Hin].
  - apply String.eqb_eq in E. congruence.
  - destruct (IH Hin) as [l' ->]. now eexists.
Qed.

Lemma append_each {A B : Type} (f : A -> B) (l : list A) :
  forall acc : list B,
    fold_left (fun acc x => acc ++ [f x]) l acc = acc ++ map f l.
Proof.
  induction l as [|a l IH]; intros acc; simpl.
  - now rewrite app_nil_r.
  - rewrite IH, <- app_assoc. reflexivity.
Qed.

Lemma first_rows_sound (l : list watch) :
  forall seen w, In w (first_rows seen l) ->
                 In w l /\ py_in (code w) seen = false.
Proof.
  induction l as [|v vs IH]; intros seen w H; simpl in *; [contradiction|].
  destruct (py_in (code v) seen) eqn:E.
  - apply IH in H as [H1 H2]. auto.
  - destruct H as [<-|H]; [auto|].
    apply IH in H as [H1 H2]. split; [auto|].
    rewrite py_in_cons in H2. now apply orb_false_elim in H2.
Qed.

Lemma first_rows_nodup (l : list watch) :
  forall seen, NoDup (map code (first_rows seen l)).
Proof.
  induction l as [|v vs IH]; intros seen; simpl; [constructor|].
  destruct (py_in (code v) seen); [apply IH|].
  simpl. constructor; [|apply IH].
  intros H. apply in_map_iff in H as [w [E Hw]].
  apply first_rows_sound in Hw as [_ Hw].
  rewrite py_in_cons, E, String.eqb_refl in Hw. discriminate.
Qed.

Lemma first_rows_complete (l : list watch) :
  forall seen c, In c (codes l) -> py_in c seen = false ->
                 In c (map code (first_rows seen l)).
Proof.
  unfold codes.
  induction l as [|v vs IH]; intros seen c Hc Hs; simpl in *; [contradiction|].
  destruct (py_in (code v) seen) eqn:E.
  - destruct Hc as [Hc|Hc]; [congruence | now apply IH].
  - simpl. destruct (String.eqb_spec c (code v)) as [->|Hne]; [now left|].
    right. destruct Hc as [Hc|Hc]; [congruence|].
    apply IH; [assumption|].
    rewrite py_in_cons, Hs. apply orb_false_intro; [|reflexivity].
    now apply String.eqb_neq.
Qed.

End ListFacts.

(** ** The reconciliation loops *)

Section LoopFacts.

Variables (R : Type) (mk : string -> Z -> R).

(** The loop only ever appends to the list it was given. *)
Lemma match_loop_acc (feed : list watch) :
  forall acc ids,
    match_loop mk feed acc ids
    = ('(new, ids') <- match_loop mk feed [] ids ;; Ok (acc ++ new, ids')).
Proof.
  induction feed as [|w rest IH]; intros acc ids; simpl.
  - now rewrite app_nil_r.
  - destruct (py_in (code w) ids); [|apply IH].
    destruct (stock_of_count (w_count w)) as [n|e]; simpl; [|reflexivity].
    destruct (py_remove (code w) ids) as [ids1|e]; simpl; [|reflexivity].
    rewrite IH. rewrite (IH [mk (code w) n]).
    destruct (match_loop mk rest [] ids1) as [[new ids']|e]; simpl;
      [|reflexivity].
    now rewrite <- app_assoc.
Qed.

(** The invariant of the feed walk over a duplicate-free catalog [C]:
    with the codes in [seen] already consumed, the working list is [C]
    without [seen]. *)
Lemma match_loop_walk (C : list string) (feed : list watch) :
  NoDup C ->
  forall seen new ids',
    match_loop mk feed [] (filter (fun i => negb (py_in i seen)) C)
    = Ok (new, ids') ->
    ids' = filter (fun i => negb (py_in i seen)
                            && negb (py_in i (codes feed))) C /\
    Forall2 (emitted mk)
            (first_rows seen (filter (fun w => py_in (code w) C) feed)) new.
Proof.
  intros Hnd.
  induction feed as [|w rest IH]; intros seen new ids' H; simpl in H.
  - injection H as <- <-. split; [|constructor].
    apply filter_ext. intros i. simpl. now rewrite andb_true_r.
  - set (ids := filter (fun i => negb (py_in i seen)) C) in *.
    assert (Hids : forall c, py_in c ids = true
                             <-> In c C /\ py_in c seen = false).
    { intros c. rewrite py_in_In. unfold ids. rewrite filter_In.
      now rewrite negb_true_iff. }
    destruct (py_in (code w) ids) eqn:Hin.
    + apply Hids in Hin as Hc. destruct Hc as [HcC Hcs].
      destruct (stock_of_count (w_count w)) as [n|e] eqn:Hn; simpl in H;
        [|discriminate].
      rewrite py_remove_nodup in H;
        [|unfold ids; now apply NoDup_filter | assumption].
      simpl in H. rewrite match_loop_acc in H.
      unfold ids in H. rewrite filter_filter_and in H.
      rewrite (filter_ext _ (fun i => negb (py_in i (code w :: seen)))) in H.
      2:{ intros i. rewrite py_in_cons, negb_orb. apply andb_comm. }
      destruct (match_loop mk rest [] _) as [[new1 ids1]|e] eqn:Hrest;
        simpl in H; [|discriminate].
      injection H as <- <-.
      apply IH in Hrest as [-> HF]. split.
      * apply filter_ext. intros i.
        change (codes (w :: rest)) with (code w :: codes rest).
        rewrite !py_in_cons, !negb_orb.
        destruct (String.eqb i (code w)), (py_in i seen); reflexivity.
      * simpl. apply py_in_In in HcC. rewrite HcC. simpl. rewrite Hcs.
        constructor; [|assumption]. now exists n.
    + apply IH in H as [-> HF]. split.
      * apply filter_ext_in. intros i Hi.
        change (codes (w :: rest)) with (code w :: codes rest).
        rewrite py_in_cons, negb_orb.
        destruct (py_in i seen) eqn:Eis; [reflexivity|]. simpl.
        destruct (String.eqb_spec i (code w)) as [->|]; [|reflexivity].
        assert (py_in (code w) ids = true) by now apply Hids.
        congruence.
      * simpl. destruct (py_in (code w) C) eqn:EC; [|assumption].
        simpl. destruct (py_in (code w) seen) eqn:Es; [assumption|].
        assert (py_in (code w) ids = true).
        { apply Hids. split; [now apply py_in_In | assumption]. }
        congruence.
Qed.

(** The walk succeeds as soon as every quantity of the feed classifies. *)
Lemma match_loop_total (feed : list watch) :
  Forall (fun w => exists n, stock_of_count (w_count w) = Ok n) feed ->
  forall acc ids, exists out ids', match_loop mk feed acc ids = Ok (out, ids').
Proof.
  induction 1 as [|w rest [n Hn] _ IH]; intros acc ids; simpl.
  - now do 2 eexists.
  - destruct (py_in (code w) ids) eqn:Hin; [|apply IH].
    rewrite Hn. simpl.
    destruct (py_remove_total _ _ Hin) as [ids1 ->]. simpl. apply IH.
Qed.

(** A property of the rows passes to the updates built from them. *)
Lemma match_loop_forall (Q : watch -> Prop) (P : R -> Prop) :
  (forall w n, Q w -> stock_of_count (w_count w) = Ok n ->
               P (mk (code w) n)) ->
  forall feed acc ids out ids',
    Forall Q feed -> Forall P acc ->
    match_loop mk feed acc ids = Ok (out, ids') -> Forall P out.
Proof.
  intros HQP. induction feed as [|w rest IH]; intros acc ids out ids' HQ HP H;
    simpl in H.
  - now injection H as <- <-.
  - inversion HQ as [|? ? Hw Hrest]; subst.
    destruct (py_in (code w) ids); [|eapply IH; eassumption].
    destruct (stock_of_count (w_count w)) as [n|e] eqn:Hn; simpl in H;
      [|discriminate].
    destruct (py_remove (code w) ids) as [ids1|e]; simpl in H;
      [|discriminate].
    eapply IH; [eassumption| |eassumption].
    apply Forall_app. split; [assumption|].
    constructor; [|constructor]. now apply HQP.
Qed.

Variable key : R -> string.
Hypothesis key_mk : forall i n, key (mk i n) = i.

Lemma emitted_keys (rows : list watch) (new : list R) :
  Forall2 (emitted mk) rows new -> map key new = map code rows.
Proof.
  induction 1 as [|w r rows new [n [_ ->]] _ IH]; simpl; [reflexivity|].
  now rewrite key_mk, IH.
Qed.

Lemma match_loop_reconciled (feed : list watch) (C : list string)
    (new : list R) (C' : list string) :
  NoDup C ->
  match_loop mk feed [] C = Ok (new, C') ->
  reconciled key mk feed C (new ++ map (fun i => mk i 0) C') C'.
Proof.
  intros Hnd H.
  rewrite <- (filter_true C) in H at 1.
  apply (match_loop_walk feed Hnd []) in H as [HC' HF].
  assert (EC : C' = unmatched feed C) by exact HC'.
  clear HC'.
  pose proof (emitted_keys HF) as Hkeys.
  assert (Hzero : map key (map (fun i => mk i 0) C') = C').
  { rewrite map_map. rewrite (map_ext _ (fun i => i)); [apply map_id|].
    intros i. apply key_mk. }
  assert (Hall : map key (new ++ map (fun i => mk i 0) C')
                 = map code (first_rows []
                               (filter (fun w => py_in (code w) C) feed))
                   ++ C').
  { now rewrite map_app, Hkeys, Hzero. }
  assert (Hmem : forall x,
             In x (map code (first_rows []
                               (filter (fun w => py_in (code w) C) feed)))
             <-> In x C /\ In x (codes feed)).
  { intros x. split.
    - intros Hx. apply in_map_iff in Hx as [w [<- Hw]].
      apply first_rows_sound in Hw as [Hw _].
      apply filter_In in Hw as [Hw HwC].
      split; [now apply py_in_In | now apply in_map].
    - intros [HxC Hxf]. apply first_rows_complete; [|reflexivity].
      apply in_map_iff in Hxf as [w [<- Hw]].
      apply in_map. apply filter_In. split; [assumption|].
      now apply py_in_In. }
  assert (Hun : forall x, In x C' <-> In x C /\ ~ In x (codes feed)).
  { intros x. rewrite EC. unfold unmatched. rewrite filter_In.
    now rewrite negb_true_iff, py_in_false. }
  assert (Hnd' : NoDup (map key (new ++ map (fun i => mk i 0) C'))).
  { rewrite Hall. apply NoDup_app.
    - apply first_rows_nodup.
    - rewrite EC. now apply NoDup_filter.
    - intros x Hx Hx'. apply Hmem in Hx. apply Hun in Hx'. tauto. }
  assert (Hperm : Permutation (map key (new ++ map (fun i => mk i 0) C')) C).
  { apply NoDup_Permutation; [assumption | assumption|].
    intros x. rewrite Hall, in_app_iff, Hmem, Hun.
    destruct (in_dec string_dec x (codes feed)); tauto. }
  exists new. repeat split; try assumption.
  rewrite <- (length_map key). now apply Permutation_length.
Qed.

End LoopFacts.

Section PriceLoopFacts.

Variables (R V : Type) (conv : pyval -> result V) (mkp : string -> V -> R).

Lemma price_loop_forall (P : R -> Prop) :
  (forall w v, conv (w_price w) = Ok v -> P (mkp (code w) v)) ->
  forall feed acc ids out,
    Forall P acc -> price_loop conv mkp feed acc ids = Ok out -> Forall P out.
Proof.
  intros HP. induction feed as [|w rest IH]; intros acc ids out Hacc H;
    simpl in H.
  - now injection H as <-.
  - destruct (py_in (code w) ids); [|eapply IH; eassumption].
    destruct (conv (w_price w)) as [v|e] eqn:Hv; simpl in H; [|discriminate].
    eapply IH; [|eassumption].
    apply Forall_app. split; [assumption|].
    constructor; [|constructor]. now apply HP.
Qed.

(** No row of the feed is listed: nothing is emitted. *)
Lemma price_loop_none (feed : list watch) (ids : list string) :
  (forall w, In w feed -> py_in (code w) ids = false) ->
  forall acc, price_loop conv mkp feed acc ids = Ok acc.
Proof.
  induction feed as [|w rest IH]; intros H acc; simpl; [reflexivity|].
  rewrite (H w (or_introl eq_refl)). apply IH.
  intros v Hv. apply H. now right.
Qed.



Variable key : R -> string.
Hypothesis key_mkp : forall i v, key (mkp i v) = i.

(** One update per listed row, in feed order. *)
Lemma price_loop_keys (feed : list watch) :
  forall acc ids out,
    price_loop conv mkp feed acc ids = Ok out ->
    map key out = map key acc ++ matched_codes feed ids.
Proof.
  unfold matched_codes, codes.
  induction feed as [|w rest IH]; intros acc ids out H; simpl in H |- *.
  - injection H as <-. now rewrite app_nil_r.
  - destruct (py_in (code w) ids); [|now apply IH].
    destruct (conv (w_price w)) as [v|e]; simpl in H; [|discriminate].
    apply IH in H. rewrite H, map_app. simpl.
    now rewrite key_mkp, <- app_assoc.
Qed.

End PriceLoopFacts.

(** ** The loops of the two marketplaces are instances of the generic ones *)

Section Instances.

Lemma seller_match_feed_loop (feed : list watch) :
  forall acc ids,
    Seller.match_feed feed acc ids = match_loop seller_stock feed acc ids.
Proof.
  induction feed as [|w rest IH]; intros acc ids; simpl; [reflexivity|].
  unfold code. destruct (py_in (py_str (w_code w)) ids); [|apply IH].
  destruct (stock_of_count (w_count w)); simpl; [|reflexivity].
  destruct (py_remove (py_str (w_code w)) ids); simpl; [apply IH|reflexivity].
Qed.

Lemma market_match_feed_loop (date wh : string) (feed : list watch) :
  forall acc ids,
    Market.match_feed date wh feed acc ids
    = match_loop (market_stock date wh) feed acc ids.
Proof.
  induction feed as [|w rest IH]; intros acc ids; simpl; [reflexivity|].
  unfold code. destruct (py_in (py_str (w_code w)) ids); [|apply IH].
  destruct (stock_of_count (w_count w)); simpl; [|reflexivity].
  destruct (py_remove (py_str (w_code w)) ids); simpl; [apply IH|reflexivity].
Qed.

Lemma seller_price_feed_loop (feed : list watch) :
  forall acc ids,
    Seller.price_feed feed acc ids
    = price_loop price_conversion seller_price feed acc ids.
Proof.
  induction feed as [|w rest IH]; intros acc ids; simpl; [reflexivity|].
  unfold code. destruct (py_in (py_str (w_code w)) ids); [|apply IH].
  destruct (price_conversion (w_price w)); simpl; [apply IH|reflexivity].
Qed.

Lemma market_price_feed_loop (feed : list watch) :
  forall acc ids,
    Market.price_feed feed acc ids
    = price_loop Market.price_number market_price feed acc ids.
Proof.
  induction feed as [|w rest IH]; intros acc ids; simpl; [reflexivity|].
  unfold code. destruct (py_in (py_str (w_code w)) ids); [|apply IH].
  destruct (Market.price_number (w_price w)); simpl; [apply IH|reflexivity].
Qed.

Lemma seller_create_stocks_eq (feed : list watch) (C : list string) :
  Seller.create_stocks feed C
  = ('(new, C') <- match_loop seller_stock feed [] C ;;
     Ok (new ++ map (fun i => seller_stock i 0) C', C')).
Proof.
  unfold Seller.create_stocks. rewrite seller_match_feed_loop.
  destruct (match_loop seller_stock feed [] C) as [[new C']|e]; simpl;
    [|reflexivity].
  unfold Seller.add_missing.
  now rewrite (append_each (fun i => seller_stock i 0)).
Qed.

Lemma market_create_stocks_eq (feed : list watch) (C : list string)
    (wh : string) (c : Market.clock) :
  Market.create_stocks feed C wh c
  = (let date := Market.readings c (Market.reads c) in
     '(new, C') <- match_loop (market_stock date wh) feed [] C ;;
     Ok (new ++ map (fun i => market_stock date wh i 0) C', C'),
     {| Market.readings := Market.readings c;
        Market.reads := S (Market.reads c) |}).
Proof.
  unfold Market.create_stocks, Market.utcnow. f_equal.
  rewrite market_match_feed_loop.
  destruct (match_loop _ feed [] C) as [[new C']|e]; simpl; [|reflexivity].
  unfold Market.add_missing.
  now rewrite (append_each
                 (fun i => market_stock (Market.readings c (Market.reads c))
                                        wh i 0)).
Qed.

End Instances.

(** ** Batches *)

Section DivideFacts.

Variable A : Type.

Lemma firstn_add (a b : nat) :
  forall l : list A, firstn (a + b)%nat l = firstn a l ++ firstn b (skipn a l).
Proof.
  induction a as [|a IH]; intros l; [reflexivity|].
  destruct l as [|x l]; simpl.
  - now rewrite firstn_nil.
  - now rewrite IH.
Qed.

(** Consecutive windows of width [m] cover a prefix of the list. *)
Lemma windows_concat (m : nat) (l : list A) (k : nat) :
  List.concat (map (fun j => firstn m (skipn (j * m)%nat l)) (seq 0 k))
  = firstn (k * m)%nat l.
Proof.
  induction k as [|k IH]; [reflexivity|].
  rewrite seq_S, map_app, concat_app, IH. simpl.
  rewrite app_nil_r, <- firstn_add. f_equal. lia.
Qed.

Lemma slice_window (l : list A) (i n : Z) :
  0 <= i -> 0 < n ->
  py_slice l i (i + n) = firstn (Z.to_nat n) (skipn (Z.to_nat i) l).
Proof.
  intros Hi Hn. unfold py_slice, slice_bound.
  destruct (Z.ltb_spec i 0) as [?|_]; [lia|].
  destruct (Z.ltb_spec (i + n) 0) as [?|_]; [lia|].
  destruct (Z_le_gt_dec (Z.of_nat (List.length l)) i) as [Hout|Hin].
  - rewrite (skipn_all2 l (n := Z.to_nat i)) by lia.
    rewrite (skipn_all2 l (n := Z.to_nat (Z.min i _))) by lia.
    now rewrite !firstn_nil.
  - rewrite (Z.min_l i) by lia.
    destruct (Z_le_gt_dec (i + n) (Z.of_nat (List.length l))) as [Hfit|Hcut].
    + rewrite (Z.min_l (i + n)) by lia. do 2 f_equal. lia.
    + rewrite (Z.min_r (i + n)) by lia.
      rewrite !firstn_all2; [reflexivity| |]; rewrite length_skipn; lia.
Qed.

Lemma range_length_ceil (len n : Z) :
  0 <= len -> 0 < n -> range_length 0 len n = ceil_div len n.
Proof.
  intros Hlen Hn. unfold range_length, ceil_div.
  destruct (Z.ltb_spec 0 n) as [_|?]; [|lia].
  destruct (Z.ltb_spec 0 len) as [Hpos|Hzero].
  - replace (len + n - 1) with (len - 0 - 1 + 1 * n) by lia.
    rewrite Z.div_add by lia. reflexivity.
  - replace len with 0 by lia. symmetry. apply Z.div_small. lia.
Qed.

Lemma ceil_div_covers (len n : Z) :
  0 <= len -> 0 < n -> 0 <= ceil_div len n /\ len <= ceil_div len n * n.
Proof.
  intros Hlen Hn. unfold ceil_div.
  pose proof (Z.div_mod (len + n - 1) n ltac:(lia)) as E.
  pose proof (Z.mod_pos_bound (len + n - 1) n Hn) as B.
  split; [apply Z.div_pos; lia | nia].
Qed.

(** [ceil_div len n] is the least number of windows of width [n] that
    cover [len] elements. *)
Lemma ceil_div_least (len n : Z) :
  0 <= len -> 0 < n -> (ceil_div len n - 1) * n < len.
Proof.
  intros Hlen Hn. unfold ceil_div.
  pose proof (Z.div_mod (len + n - 1) n ltac:(lia)) as E.
  pose proof (Z.mod_pos_bound (len + n - 1) n Hn) as B.
  nia.
Qed.

(** With a positive width, [divide] cuts the list into its consecutive
    windows. *)
Lemma divide_windows (l : list A) (n : Z) :
  0 < n ->
  divide l n
  = Ok (map (fun j => firstn (Z.to_nat n) (skipn (j * Z.to_nat n)%nat l))
            (seq 0 (Z.to_nat (ceil_div (Z.of_nat (List.length l)) n)))).
Proof.
  intros Hn. unfold divide, py_range.
  destruct (Z.eqb_spec n 0) as [?|_]; [lia|]. simpl.
  rewrite range_length_ceil by lia.
  rewrite map_map. f_equal. apply map_ext. intros j.
  rewrite slice_window by lia. do 2 f_equal.
  rewrite Z2Nat.inj_mul, Nat2Z.id by lia. reflexivity.
Qed.

Lemma divide_total (l : list A) (n : Z) :
  0 < n -> exists batches, divide l n = Ok batches.
Proof. intros Hn. rewrite divide_windows by assumption. now eexists. Qed.

End DivideFacts.

Lemma divide_nil (A : Type) (n : Z) : 0 < n -> divide (@nil A) n = Ok [].
Proof.
  intros Hn. rewrite divide_windows by assumption. simpl.
  unfold ceil_div. rewrite Z.div_small by lia. reflexivity.
Qed.

(** ** Stock reconciliation *)

Lemma nodup_catalog_2 : NoDup catalog_2.
Proof.
  unfold catalog_2. repeat constructor; simpl; intuition discriminate.
Qed.

(** [create_stocks] returns whenever every quantity of the feed classifies. *)
Lemma create_stocks_returns (feed : list watch) (C : list string) :
  Forall (fun w => exists n, stock_of_count (w_count w) = Ok n) feed ->
  exists stocks C', Seller.create_stocks feed C = Ok (stocks, C').
Proof.
  intros H. rewrite seller_create_stocks_eq.
  destruct (match_loop_total seller_stock H [] C) as [new [C' ->]].
  simpl. now do 2 eexists.
Qed.

Lemma seller_reconciled (feed : list watch) (C : list string)
    (stocks : list Seller.stock_item) (C' : list string) :
  NoDup C ->
  Seller.create_stocks feed C = Ok (stocks, C') ->
  reconciled Seller.offer_id seller_stock feed C stocks C'.
Proof.
  intros Hnd H. rewrite seller_create_stocks_eq in H.
  destruct (match_loop seller_stock feed [] C) as [[new C1]|e] eqn:E;
    simpl in H; [|discriminate].
  injection H as <- <-.
  apply match_loop_reconciled; [reflexivity | assumption | assumption].
Qed.

Lemma market_reconciled (feed : list watch) (C : list string) (wh : string)
    (c : Market.clock) (stocks : list Market.sku_stock) (C' : list string) :
  NoDup C ->
  fst (Market.create_stocks feed C wh c) = Ok (stocks, C') ->
  reconciled Market.sku
             (market_stock (Market.readings c (Market.reads c)) wh)
             feed C stocks C'.
Proof.
  intros Hnd H. rewrite market_create_stocks_eq in H. cbn [fst] in H.
  destruct (match_loop _ feed [] C) as [[new C1]|e] eqn:E;
    simpl in H; [|discriminate].
  injection H as <- <-.
  apply match_loop_reconciled; [reflexivity | assumption | assumption].
Qed.

(** C1: for every feed and every duplicate-free catalog [C], the stock
    updates that [create_stocks] returns (seller.py and market.py alike) are
    the updates of the matched rows, one per code, in feed order and with
    the classified count, followed by a zero for every identifier of [C]
    that the feed does not carry, in catalog order; their identifiers are
    those of [C], none missing and none twice. *)
Theorem create_stocks_complete (feed : list watch) (C : list string)
    (Hnd : NoDup C) :
  (forall stocks C',
      Seller.create_stocks feed C = Ok (stocks, C') ->
      reconciled Seller.offer_id seller_stock feed C stocks C') /\
  (forall wh c stocks C',
      fst (Market.create_stocks feed C wh c) = Ok (stocks, C') ->
      reconciled Market.sku
                 (market_stock (Market.readings c (Market.reads c)) wh)
                 feed C stocks C').
Proof.
  split.
  - intros stocks C' H. now apply seller_reconciled.
  - intros wh c stocks C' H. now apply market_reconciled.
Qed.

Lemma create_stocks_complete_witness :
  NoDup catalog_2 /\
  reconciled Seller.offer_id seller_stock feed_48852 catalog_2
             [seller_stock "48852" 3; seller_stock "99999" 0] ["99999"] /\
  reconciled Market.sku (market_stock "2023-05-01T10:00:00Z" "ware") feed_48852
             catalog_2
             [market_stock "2023-05-01T10:00:00Z" "ware" "48852" 3;
              market_stock "2023-05-01T10:00:00Z" "ware" "99999" 0]
             ["99999"].
Proof.
  split; [exact nodup_catalog_2|]. split.
  - apply (proj1 (create_stocks_complete feed_48852 nodup_catalog_2)).
    reflexivity.
  - apply (proj2 (create_stocks_complete feed_48852 nodup_catalog_2)
             "ware" clock_0).
    reflexivity.
Defined.

(** C9: within one call of market.py's [create_stocks] the clock is read
    once, before the feed walk, and every stock update, matched or zeroed,
    carries that one reading. *)
Theorem stock_updates_share_timestamp (feed : list watch) (C : list string)
    (wh : string) (c c' : Market.clock)
    (stocks : list Market.sku_stock) (C' : list string)
    (H : Market.create_stocks feed C wh c = (Ok (stocks, C'), c')) :
  Market.reads c' = S (Market.reads c) /\
  Forall (fun s =>
            Forall (fun it => Market.updatedAt it
                              = Market.readings c (Market.reads c))
                   (Market.items s))
         stocks.
Proof.
  rewrite market_create_stocks_eq in H. injection H as H <-.
  split; [reflexivity|].
  destruct (match_loop _ feed [] C) as [[new C1]|e] eqn:E;
    simpl in H; [|discriminate].
  injection H as <- <-. apply Forall_app. split.
  - refine (@match_loop_forall _ _ (fun _ => True) _ _ feed [] C new C1 _ _ E).
    + intros w n _ _. simpl. now repeat constructor.
    + apply Forall_forall. trivial.
    + constructor.
  - apply Forall_forall. intros s Hs. apply in_map_iff in Hs as [i [<- _]].
    simpl. now repeat constructor.
Qed.

Lemma stock_updates_share_timestamp_witness :
  Forall (fun s =>
            Forall (fun it => Market.updatedAt it = "2023-05-01T10:00:00Z")
                   (Market.items s))
         [market_stock "2023-05-01T10:00:00Z" "ware" "48852" 3;
          market_stock "2023-05-01T10:00:00Z" "ware" "99999" 0].
Proof.
  apply (stock_updates_share_timestamp
           (feed := feed_48852) (C := catalog_2) (wh := "ware") (c := clock_0)
           (C' := ["99999"]) eq_refl).
Defined.

(** ** The catalog list after [create_stocks] *)

Lemma unmatched_members (feed : list watch) (C : list string) (x : string) :
  In x (unmatched feed C) <-> In x C /\ ~ In x (codes feed).
Proof.
  unfold unmatched. rewrite filter_In.
  now rewrite negb_true_iff, py_in_false.
Qed.

Lemma create_prices_unmatched (feed : list watch) (C : list string) :
  Seller.create_prices feed (unmatched feed C) = Ok [].
Proof.
  unfold Seller.create_prices. rewrite seller_price_feed_loop.
  apply price_loop_none. intros w Hw. apply py_in_false.
  rewrite unmatched_members. intros [_ Hno]. apply Hno.
  unfold codes. now apply in_map.
Qed.

(** C10, as the code has it: [create_stocks] works on the caller's list, and
    for a duplicate-free catalog that list afterwards holds exactly the
    identifiers no feed row carries (in seller.py and in market.py);
    [create_prices] given that list, as in seller.py's [main], returns the
    empty list, so [main] dispatches no price batch. *)
Theorem create_stocks_consumes_catalog (feed : list watch) (C : list string)
    (stocks : list Seller.stock_item) (C' : list string)
    (Hnd : NoDup C)
    (H : Seller.create_stocks feed C = Ok (stocks, C')) :
  C' = unmatched feed C /\
  (forall x, In x C' <-> In x C /\ ~ In x (codes feed)) /\
  Seller.create_prices feed C' = Ok [] /\
  (exists stock_batches,
      Seller.main_batches feed C = Ok (stock_batches, [])) /\
  (forall wh c stocks2 C2,
      fst (Market.create_stocks feed C wh c) = Ok (stocks2, C2) ->
      C2 = unmatched feed C).
Proof.
  pose proof (seller_reconciled feed Hnd H) as [matched [_ [_ [EC _]]]].
  subst C'. split; [reflexivity|].
  split; [intros x; apply unmatched_members|].
  split; [apply create_prices_unmatched|]. split.
  - unfold Seller.main_batches. rewrite H. cbn [bind].
    destruct (divide_total stocks (n := 100)) as [sb ->]; [lia|]. cbn [bind].
    rewrite create_prices_unmatched. cbn [bind].
    rewrite divide_nil by lia. cbn [bind]. now eexists.
  - intros wh c stocks2 C2 H2.
    now pose proof (market_reconciled feed wh c Hnd H2)
      as [matched2 [_ [_ [EC2 _]]]].
Qed.

Lemma create_stocks_consumes_catalog_witness :
  NoDup catalog_2 /\
  Seller.create_stocks feed_48852 catalog_2
  = Ok ([seller_stock "48852" 3; seller_stock "99999" 0], ["99999"]) /\
  Seller.create_prices feed_48852 ["99999"] = Ok [].
Proof.
  split; [exact nodup_catalog_2|]. split; [reflexivity|].
  exact (proj1 (proj2 (proj2
           (create_stocks_consumes_catalog feed_48852 nodup_catalog_2
                                           eq_refl)))).
Defined.

(** C10 as stated fails on a catalog list that holds an identifier twice:
    [remove] deletes one of the two, the list handed on still holds a code
    of the feed, and [create_prices] emits a price update for it. *)
Lemma create_prices_after_stocks_duplicate_catalog :
  Seller.create_stocks [row "a" "3" "5.00"] ["a"; "a"]
  = Ok ([seller_stock "a" 3; seller_stock "a" 0], ["a"]) /\
  In "a" (codes [row "a" "3" "5.00"]) /\
  Seller.create_prices [row "a" "3" "5.00"] ["a"] = Ok [seller_price "a" "5"] /\
  Seller.create_prices [row "a" "3" "5.00"] ["a"] <> Ok [] /\
  Seller.main_batches [row "a" "3" "5.00"] ["a"; "a"]
  = Ok ([[seller_stock "a" 3; seller_stock "a" 0]], [[seller_price "a" "5"]]).
Proof.
  repeat split; try reflexivity.
  - now left.
  - discriminate.
Qed.

(** ** Price updates *)

Lemma all_digits_no_minus (s : string) : all_digits s = true -> no_minus s = true.
Proof.
  unfold all_digits, no_minus. rewrite !forallb_forall.
  intros H a Ha. apply negb_true_iff.
  now apply digit_not_char; [apply H|].
Qed.

Lemma price_conversion_digits (v : pyval) (d : string) :
  price_conversion v = Ok d -> all_digits d = true.
Proof.
  destruct v as [|z|p]; try discriminate.
  rewrite price_conversion_text. intros E. injection E as <-.
  apply digits_only_all_digits.
Qed.

Lemma price_number_text (p : string) :
  Market.price_number (PyStr p)
  = if String.eqb (digits_only (before_first_dot p)) EmptyString
    then Raise ValueError
    else if int_max_str_digits
            <? Z.of_nat (String.length (digits_only (before_first_dot p)))
    then Raise ValueError
    else Ok (base10 (digits_only (before_first_dot p))).
Proof.
  unfold Market.price_number. rewrite price_conversion_text. simpl.
  destruct (String.eqb_spec (digits_only (before_first_dot p)) "") as [->|Hne].
  - reflexivity.
  - apply int_of_digits; [apply digits_only_all_digits | assumption].
Qed.


Lemma price_number_nonneg (v : pyval) (n : Z) :
  Market.price_number v = Ok n -> 0 <= n.
Proof.
  unfold Market.price_number.
  destruct (price_conversion v) as [d|e] eqn:E; simpl; [|discriminate].
  apply price_conversion_digits, all_digits_no_minus in E.
  now apply int_of_str_nonneg.
Qed.

Lemma price_loop_law (R V : Type) (conv : pyval -> result V)
    (mkp : string -> V -> R) (key : R -> string) :
  (forall i v, key (mkp i v) = i) ->
  forall feed C prices,
    price_loop conv mkp feed [] C = Ok prices -> price_law key feed C prices.
Proof.
  intros Hkey feed C prices H.
  apply (price_loop_keys conv mkp key Hkey) in H. simpl in H.
  unfold price_law. rewrite H. unfold matched_codes.
  split; [reflexivity|]. split.
  - intros x Hx. apply filter_In in Hx as [Hx HxC].
    split; [now apply py_in_In | assumption].
  - apply NoDup_filter.
Qed.

(** C4, as the code has it: [create_prices] (seller.py and market.py) emits
    one price update per feed row whose code the catalog lists, in feed
    order; every identifier in its result is a catalog identifier and a feed
    code; an identifier comes once for each feed row carrying it, hence at
    most once when the feed codes are distinct. *)
Theorem create_prices_law (feed : list watch) (C : list string) :
  (forall prices,
      Seller.create_prices feed C = Ok prices ->
      price_law Seller.price_offer_id feed C prices) /\
  (forall prices,
      Market.create_prices feed C = Ok prices ->
      price_law Market.id feed C prices).
Proof.
  split; intros prices H.
  - unfold Seller.create_prices in H. rewrite seller_price_feed_loop in H.
    exact (@price_loop_law _ _ price_conversion seller_price
                           Seller.price_offer_id (fun _ _ => eq_refl)
                           feed C prices H).
  - unfold Market.create_prices in H. rewrite market_price_feed_loop in H.
    exact (@price_loop_law _ _ Market.price_number market_price
                           Market.id (fun _ _ => eq_refl)
                           feed C prices H).
Qed.

Lemma create_prices_law_witness :
  price_law Seller.price_offer_id feed_48852 catalog_2
            [seller_price "48852" "24570"] /\
  price_law Market.id feed_48852 catalog_2 [market_price "48852" 24570].
Proof.
  split.
  - apply (proj1 (create_prices_law feed_48852 catalog_2)). reflexivity.
  - apply (proj2 (create_prices_law feed_48852 catalog_2)). reflexivity.
Defined.

(** C4 as stated fails on a feed that carries a code twice: [create_prices]
    removes nothing from the catalog list, so both rows are priced. *)
Lemma create_prices_duplicate_codes :
  Market.create_prices [row "a" "3" "5.00"; row "a" "7" "6.00"] ["a"]
  = Ok [market_price "a" 5; market_price "a" 6] /\
  Seller.create_prices [row "a" "3" "5.00"; row "a" "7" "6.00"] ["a"]
  = Ok [seller_price "a" "5"; seller_price "a" "6"] /\
  ~ NoDup (map Market.id [market_price "a" 5; market_price "a" 6]) /\
  ~ NoDup (map Seller.price_offer_id
               [seller_price "a" "5"; seller_price "a" "6"]).
Proof.
  repeat split; try reflexivity;
    intros H; inversion H as [|? ? Hin _]; apply Hin; now left.
Qed.




(** ** Signs *)

Lemma stock_of_count_nonneg (q : pyval) (n : Z) :
  no_minus (py_str q) = true -> stock_of_count q = Ok n -> 0 <= n.
Proof.
  unfold stock_of_count. intros Hm.
  assert (Rule : (if String.eqb (py_str q) ">10" then Ok 100
                  else if String.eqb (py_str q) "1" then Ok 0
                  else py_int q) = Ok n -> 0 <= n).
  { destruct (String.eqb (py_str q) ">10"); [intros E; injection E as <-; lia|].
    destruct (String.eqb (py_str q) "1"); [intros E; injection E as <-; lia|].
    destruct q as [|z|s]; simpl.
    - discriminate.
    - intros E. injection E as <-. now apply str_int_no_minus.
    - now apply int_of_str_nonneg. }
  destruct q as [|z|s]; cbn [str_of]; [exact Rule| |exact Rule].
  destruct (int_max_str_digits <? count_digits (py_str (PyInt z)));
    [discriminate | exact Rule].
Qed.

(** C8, as the code has it: every price value market.py emits is a
    non-negative integer and every price seller.py emits is a text of
    decimal digits; every stock count is non-negative provided no quantity
    of the feed, read as text, holds a minus sign. *)
Theorem updates_nonnegative (feed : list watch) (C : list string) :
  (forall prices,
      Market.create_prices feed C = Ok prices ->
      Forall (fun p => 0 <= Market.value (Market.price p)) prices) /\
  (forall prices,
      Seller.create_prices feed C = Ok prices ->
      Forall (fun p => all_digits (Seller.price p) = true) prices) /\
  (Forall (fun w => no_minus (py_str (w_count w)) = true) feed ->
   (forall stocks C',
       Seller.create_stocks feed C = Ok (stocks, C') ->
       Forall (fun s => 0 <= Seller.stock s) stocks) /\
   (forall wh c stocks C',
       fst (Market.create_stocks feed C wh c) = Ok (stocks, C') ->
       Forall (fun s => Forall (fun it => 0 <= Market.count it)
                               (Market.items s))
              stocks)).
Proof.
  split; [|split].
  - intros prices H.
    unfold Market.create_prices in H. rewrite market_price_feed_loop in H.
    refine (@price_loop_forall _ _ Market.price_number market_price _ _
                               feed [] C prices _ H); [|constructor].
    intros w v Hv. simpl. now apply price_number_nonneg in Hv.
  - intros prices H.
    unfold Seller.create_prices in H. rewrite seller_price_feed_loop in H.
    refine (@price_loop_forall _ _ price_conversion seller_price _ _
                               feed [] C prices _ H); [|constructor].
    intros w v Hv. simpl. now apply price_conversion_digits in Hv.
  - intros Hm. split.
    + intros stocks C' H. rewrite seller_create_stocks_eq in H.
      destruct (match_loop seller_stock feed [] C) as [[new C1]|e] eqn:E;
        simpl in H; [|discriminate].
      injection H as <- <-. apply Forall_app. split.
      * refine (@match_loop_forall _ seller_stock _ _ _ feed [] C new C1
                                   Hm _ E); [|constructor].
        intros w n Hw Hn. simpl. eapply stock_of_count_nonneg; eassumption.
      * apply Forall_forall. intros s Hs.
        apply in_map_iff in Hs as [i [<- _]]. simpl. lia.
    + intros wh c stocks C' H. rewrite market_create_stocks_eq in H.
      cbn [fst] in H.
      destruct (match_loop _ feed [] C) as [[new C1]|e] eqn:E;
        simpl in H; [|discriminate].
      injection H as <- <-. apply Forall_app. split.
      * refine (@match_loop_forall _ (market_stock _ wh) _ _ _ feed [] C new C1
                                   Hm _ E); [|constructor].
        intros w n Hw Hn. simpl. constructor; [|constructor]. simpl.
        eapply stock_of_count_nonneg; eassumption.
      * apply Forall_forall. intros s Hs.
        apply in_map_iff in Hs as [i [<- _]]. simpl.
        constructor; [simpl; lia | constructor].
Qed.

Lemma updates_nonnegative_witness :
  Forall (fun w => no_minus (py_str (w_count w)) = true) feed_48852 /\
  Forall (fun s => 0 <= Seller.stock s)
         [seller_stock "48852" 3; seller_stock "99999" 0] /\
  Forall (fun p => 0 <= Market.value (Market.price p))
         [market_price "48852" 24570].
Proof.
  assert (Hm : Forall (fun w => no_minus (py_str (w_count w)) = true)
                      feed_48852)
    by (repeat constructor).
  split; [exact Hm|]. split.
  - apply (proj1 (proj2 (proj2 (updates_nonnegative feed_48852 catalog_2)) Hm)
             _ ["99999"]).
    reflexivity.
  - apply (proj1 (updates_nonnegative feed_48852 catalog_2)). reflexivity.
Defined.

(** C8 as stated fails on a quantity holding a negative integer: [int()]
    accepts it and the stock update carries the negative count. *)
Lemma create_stocks_negative_count :
  Seller.create_stocks [row "a" "-5" "1.00"] ["a"]
  = Ok ([seller_stock "a" (-5)], []) /\
  fst (Market.create_stocks [row "a" "-5" "1.00"] ["a"] "ware" clock_0)
  = Ok ([market_stock "2023-05-01T10:00:00Z" "ware" "a" (-5)], []) /\
  ~ Forall (fun s => 0 <= Seller.stock s) [seller_stock "a" (-5)].
Proof.
  repeat split; try reflexivity.
  intros H. inversion H as [|? ? Hneg _]. simpl in Hneg. lia.
Qed.

(** ** The quantity rule *)

Lemma str_int_not_more_than_ten (z : Z) : py_str (PyInt z) <> ">10".
Proof.
  simpl. intros H.
  assert (E : NilZero.int_of_string (NilZero.string_of_int (Z.to_int z))
              = NilZero.int_of_string ">10") by now rewrite H.
  rewrite NilZero.isi in E.
  - discriminate E.
  - destruct z; simpl; try discriminate.
    intros E0. pose proof (DecimalPos.Unsigned.to_uint_nonnil p). congruence.
  - destruct z; simpl; try discriminate.
Qed.

Lemma stock_of_count_text (t : string) :
  stock_of_count (PyStr t)
  = if String.eqb t ">10" then Ok 100
    else if String.eqb t "1" then Ok 0
    else int_of_str t.
Proof. reflexivity. Qed.

Lemma stock_of_count_int (z : Z) :
  stock_of_count (PyInt z)
  = if int_max_str_digits <? count_digits (py_str (PyInt z))
    then Raise ValueError
    else Ok (if z =? 1 then 0 else z).
Proof.
  unfold stock_of_count, str_of.
  destruct (int_max_str_digits <? count_digits (py_str (PyInt z)));
    [reflexivity|]. cbn [bind].
  destruct (String.eqb_spec (py_str (PyInt z)) ">10") as [E|_];
    [now apply str_int_not_more_than_ten in E|].
  destruct (String.eqb_spec (py_str (PyInt z)) "1") as [E|N];
    destruct (Z.eqb_spec z 1) as [E1|N1]; try reflexivity.
  - now apply str_int_one in E.
  - now apply str_int_one in E1.
Qed.

(** The rule on text, by what [int] returns. *)
Lemma stock_of_count_by_int (t : string) :
  (stock_of_count (PyStr t) = Ok 100
   <-> t = ">10" \/ int_of_str t = Ok 100) /\
  (stock_of_count (PyStr t) = Ok 0
   <-> t = "1" \/ int_of_str t = Ok 0) /\
  (t <> ">10" -> t <> "1" -> stock_of_count (PyStr t) = int_of_str t) /\
  ((exists e, stock_of_count (PyStr t) = Raise e)
   <-> t <> ">10" /\ t <> "1" /\ int_of_str t = Raise ValueError) /\
  (forall e, stock_of_count (PyStr t) = Raise e -> e = ValueError).
Proof.
  rewrite stock_of_count_text.
  assert (I10 : int_of_str ">10" = Raise ValueError) by reflexivity.
  assert (I1 : int_of_str "1" = Ok 1) by reflexivity.
  split; [|split; [|split; [|split]]].
  - destruct (String.eqb_spec t ">10") as [->|H10].
    + split; [now left | reflexivity].
    + destruct (String.eqb_spec t "1") as [->|H1].
      * split; [discriminate|]. intros [E|E]; [discriminate|].
        rewrite I1 in E. discriminate.
      * split; [now right|]. intros [E|E]; [contradiction | assumption].
  - destruct (String.eqb_spec t ">10") as [->|H10].
    + split; [discriminate|]. intros [E|E]; [discriminate|].
      rewrite I10 in E. discriminate.
    + destruct (String.eqb_spec t "1") as [->|H1].
      * split; [now left | reflexivity].
      * split; [now right|]. intros [E|E]; [contradiction | assumption].
  - intros H10 H1.
    destruct (String.eqb_spec t ">10") as [?|_]; [contradiction|].
    destruct (String.eqb_spec t "1") as [?|_]; [contradiction|].
    reflexivity.
  - destruct (String.eqb_spec t ">10") as [->|H10].
    + split; [intros [e He]; discriminate | intros [N _]; now contradiction N].
    + destruct (String.eqb_spec t "1") as [->|H1].
      * split; [intros [e He]; discriminate|].
        intros [_ [N _]]. now contradiction N.
      * split.
        -- intros [e He]. repeat split; try assumption.
           now rewrite He, (@int_of_str_raises t e He).
        -- intros [_ [_ E]]. exists ValueError. exact E.
  - intros e.
    destruct (String.eqb t ">10"); [discriminate|].
    destruct (String.eqb t "1"); [discriminate|].
    apply int_of_str_raises.
Qed.

(** C2, as the code has it: the rule returns 100 on the literal [">10"] and
    0 on the literal ["1"]; on every other text it returns the integer the
    text denotes as a base-10 integer literal, so 100 and 0 are also the
    counts of texts that denote them (["100"], ["0"]); it raises, and then a
    [ValueError], exactly on a text that is neither literal and is no integer
    literal.  An integer cell [z] is classified as 0 when [z = 1] and as [z]
    otherwise, unless its decimal text has more than 4300 digits, which
    [str] refuses. *)
Theorem stock_of_count_rule (t : string) (z : Z) :
  (stock_of_count (PyStr t) = Ok 100
   <-> t = ">10" \/ int_literal t 100) /\
  (stock_of_count (PyStr t) = Ok 0
   <-> t = "1" \/ int_literal t 0) /\
  (t <> ">10" -> t <> "1" ->
   forall n, stock_of_count (PyStr t) = Ok n <-> int_literal t n) /\
  ((exists e, stock_of_count (PyStr t) = Raise e)
   <-> t <> ">10" /\ t <> "1" /\ ~ exists n, int_literal t n) /\
  (forall e, stock_of_count (PyStr t) = Raise e -> e = ValueError) /\
  stock_of_count (PyInt z)
  = (if int_max_str_digits <? count_digits (py_str (PyInt z))
     then Raise ValueError
     else Ok (if z =? 1 then 0 else z)).
Proof.
  destruct (stock_of_count_by_int t) as [H100 [H0 [Hint [Hraise Hexn]]]].
  split; [|split; [|split; [|split; [|split]]]].
  - now rewrite H100, int_of_str_literal.
  - now rewrite H0, int_of_str_literal.
  - intros N10 N1 n. now rewrite (Hint N10 N1), int_of_str_literal.
  - now rewrite Hraise, int_of_str_no_literal.
  - exact Hexn.
  - apply stock_of_count_int.
Qed.

Lemma stock_of_count_rule_witness :
  "7" <> ">10" /\ "7" <> "1" /\ int_literal "7" 7 /\
  stock_of_count (PyStr "7") = Ok 7.
Proof.
  assert (H10 : "7" <> ">10") by discriminate.
  assert (H1 : "7" <> "1") by discriminate.
  assert (L : int_literal "7" 7).
  { exists EmptyString, EmptyString, "7"%string, EmptyString, ["7"%char].
    split; [reflexivity|]. split; [reflexivity|]. split; [reflexivity|].
    split; [now left|]. split; [now apply grouped_last|].
    split; [discriminate | reflexivity]. }
  split; [exact H10|]. split; [exact H1|]. split; [exact L|].
  exact (proj2 (proj1 (proj2 (proj2 (stock_of_count_rule "7" 0))) H10 H1 7) L).
Defined.

(** C2 as stated fails in both "only if" directions: the count 100 is also
    returned for the text ["100"], and the count 0 for the text ["0"]. *)
Lemma stock_of_count_not_only_literals :
  stock_of_count (PyStr "100") = Ok 100 /\ "100" <> ">10" /\
  stock_of_count (PyStr "0") = Ok 0 /\ "0" <> "1".
Proof. repeat split; try reflexivity; discriminate. Qed.

(** ** Price normalisation *)

(** C3, as the code has it: on every price text [price_conversion] returns
    the digits of the part before the first ['.'], every other character
    deleted, as text; the number read from them ([int()] in market.py) is
    their base-10 value when there are between 1 and 4300 of them, and
    [int()] raises [ValueError] otherwise; a comma does not cut the text. *)
Theorem price_conversion_normalizes (p : string) :
  price_conversion (PyStr p) = Ok (digits_only (before_first_dot p)) /\
  Market.price_number (PyStr p)
  = (if String.eqb (digits_only (before_first_dot p)) EmptyString
     then Raise ValueError
     else if int_max_str_digits
             <? Z.of_nat (String.length (digits_only (before_first_dot p)))
     then Raise ValueError
     else Ok (base10 (digits_only (before_first_dot p)))) /\
  price_conversion (PyStr "5'990.00 руб.") = Ok "5990" /\
  Market.price_number (PyStr "5'990.00 руб.") = Ok 5990 /\
  price_conversion (PyStr "5'990,00 руб.") = Ok "599000" /\
  Market.price_number (PyStr "5'990,00 руб.") = Ok 599000.
Proof.
  split; [apply price_conversion_text|].
  split; [apply price_number_text|].
  repeat split; reflexivity.
Qed.

(** C3 as stated fails on a price of more than 4300 digits: the digits
    are all kept, and [int()] refuses to read them. *)
Lemma price_number_long_price :
  String.length long_price = 4301%nat /\
  price_conversion (PyStr long_price) = Ok long_price /\
  Market.price_number (PyStr long_price) = Raise ValueError.
Proof. vm_compute. repeat split; reflexivity. Qed.

(** ** Batch partition *)

(** C6: for a positive [n], [divide] returns batches whose concatenation is
    the list, each of at most [n] elements, [ceil(len / n)] of them, and
    none for the empty list. *)
Theorem divide_partition (A : Type) (L : list A) (n : Z) (Hn : 0 < n) :
  exists batches,
    divide L n = Ok batches /\
    List.concat batches = L /\
    Forall (fun b => Z.of_nat (List.length b) <= n) batches /\
    Z.of_nat (List.length batches) = ceil_div (Z.of_nat (List.length L)) n /\
    (L = [] -> batches = []).
Proof.
  rewrite divide_windows by assumption. eexists. split; [reflexivity|].
  pose proof (@ceil_div_covers (Z.of_nat (List.length L)) n
                               ltac:(lia) Hn) as [Hk Hcover].
  split; [|split; [|split]].
  - rewrite windows_concat. apply firstn_all2. nia.
  - apply Forall_forall. intros b Hb. apply in_map_iff in Hb as [j [<- _]].
    pose proof (firstn_le_length (Z.to_nat n)
                                 (skipn (j * Z.to_nat n) L)). lia.
  - rewrite length_map, length_seq. lia.
  - intros ->. simpl. unfold ceil_div. rewrite Z.div_small by lia. reflexivity.
Qed.

Lemma divide_partition_witness :
  0 < 2 /\
  exists batches,
    divide [1; 2; 3; 4; 5] 2 = Ok batches /\
    List.concat batches = [1; 2; 3; 4; 5] /\
    Forall (fun b => Z.of_nat (List.length b) <= 2) batches /\
    Z.of_nat (List.length batches) = ceil_div 5 2 /\
    ([1; 2; 3; 4; 5] = [] -> batches = []).
Proof.
  split; [reflexivity|].
  exact (divide_partition [1; 2; 3; 4; 5] (n := 2) eq_refl).
Defined.

(** 2500 updates cut by 2000 make two batches, of 2000 and of 500. *)
Lemma divide_2500_by_2000 :
  match divide (seq 0 2500) 2000 with
  | Ok batches =>
      map (@List.length nat) batches = [2000; 500]%nat /\
      List.concat batches = seq 0 2500
  | Raise _ => False
  end.
Proof. vm_compute. split; reflexivity. Qed.

(** C7, as the code has it: a batch size of 0 makes [divide] fail (the
    [ValueError] of [range]); a negative batch size makes it return no batch
    at all, whatever the list. *)
Theorem divide_nonpositive (A : Type) (L : list A) (n : Z) (Hn : n <= 0) :
  divide L n = if n =? 0 then Raise ValueError else Ok [].
Proof.
  unfold divide, py_range.
  destruct (Z.eqb_spec n 0) as [->|Hne]; [reflexivity|].
  unfold range_length.
  destruct (Z.ltb_spec 0 n) as [?|_]; [lia|].
  destruct (Z.ltb_spec (Z.of_nat (List.length L)) 0) as [?|_]; [lia|].
  reflexivity.
Qed.

Lemma divide_nonpositive_witness :
  0 <= 0 /\ divide [1; 2; 3] 0 = Raise ValueError.
Proof.
  split; [discriminate|].
  exact (divide_nonpositive [1; 2; 3] (n := 0) (Z.le_refl 0)).
Defined.

(** C7 as stated fails on a negative batch size: nothing is raised, and the
    three elements are returned in no batch. *)
Lemma divide_negative_size :
  divide [1; 2; 3] (-1) = Ok [] /\
  ~ (exists e, divide [1; 2; 3] (-1) = Raise e).
Proof.
  split; [reflexivity|]. intros [e He]. discriminate He.
Qed.


(** * Further properties of the code *)

(** ** More on [divide] *)

Lemma nth_map_seq (A : Type) (f : nat -> A) (k i : nat) (d : A) :
  (i < k)%nat -> nth i (map f (seq 0 k)) d = f i.
Proof.
  intros Hi. rewrite (nth_indep _ d (f O)) by now rewrite length_map, length_seq.
  rewrite map_nth, seq_nth by assumption. reflexivity.
Qed.

(** Every window that starts inside the list is cut from it whole, but for
    the last one. *)
Lemma window_length (A : Type) (L : list A) (m j : nat) :
  List.length (firstn m (skipn (j * m) L))
  = Nat.min m (List.length L - j * m).
Proof. now rewrite length_firstn, length_skipn. Qed.

(** X1: for a positive [n], the batches of [divide] are the consecutive
    windows of the list: the batch of index [i] holds the elements from
    position [i * n] on, none is empty, and every batch before the last
    holds exactly [n] elements. *)
Theorem divide_batches_full (A : Type) (L : list A) (n : Z)
    (batches : list (list A)) (Hn : 0 < n) (H : divide L n = Ok batches) :
  Forall (fun b => b <> []) batches /\
  (forall i, (S i < List.length batches)%nat ->
             Z.of_nat (List.length (nth i batches [])) = n) /\
  (forall i, (i < List.length batches)%nat ->
             nth i batches []
             = firstn (Z.to_nat n) (skipn (i * Z.to_nat n) L)).
Proof.
  rewrite divide_windows in H by assumption. injection H as <-.
  pose proof (@ceil_div_covers (Z.of_nat (List.length L)) n
                               ltac:(lia) Hn) as [Hk _].
  pose proof (@ceil_div_least (Z.of_nat (List.length L)) n
                              ltac:(lia) Hn) as Hleast.
  set (k := Z.to_nat (ceil_div (Z.of_nat (List.length L)) n)) in *.
  set (m := Z.to_nat n) in *.
  assert (Hstart : forall j, (j < k)%nat -> (j * m < List.length L)%nat).
  { intros j Hj. unfold k, m in *. nia. }
  rewrite length_map, length_seq.
  split; [|split].
  - apply Forall_forall. intros b Hb. apply in_map_iff in Hb as [j [<- Hj]].
    apply in_seq in Hj. intros E. apply (f_equal (@List.length A)) in E.
    rewrite window_length in E. simpl in E.
    pose proof (Hstart j ltac:(lia)). unfold m in *. lia.
  - intros i Hi. rewrite nth_map_seq by lia. rewrite window_length.
    pose proof (Hstart (S i) Hi). unfold m in *. nia.
  - intros i Hi. now rewrite nth_map_seq.
Qed.

Lemma divide_batches_full_witness :
  nth 0 [[1; 2]; [3; 4]; [5]] [] = firstn 2 (skipn 0 [1; 2; 3; 4; 5]) /\
  Z.of_nat (List.length (nth 1 [[1; 2]; [3; 4]; [5]] [])) = 2.
Proof.
  pose proof (@divide_batches_full Z [1; 2; 3; 4; 5] 2 [[1; 2]; [3; 4]; [5]]
                                   eq_refl eq_refl) as [_ [Hfull Hnth]].
  split.
  - exact (Hnth 0%nat ltac:(simpl; lia)).
  - exact (Hfull 1%nat ltac:(simpl; lia)).
Defined.

(** ** More on the stock walk *)

Lemma py_remove_perm (x : string) (l l' : list string) :
  py_remove x l = Ok l' -> Permutation l (x :: l').
Proof.
  revert l'. induction l as [|y ys IH]; intros l' H; simpl in H; [discriminate|].
  destruct (String.eqb_spec y x) as [->|Hne].
  - injection H as <-. reflexivity.
  - destruct (py_remove x ys) as [ys'|e]; simpl in H; [|discriminate].
    injection H as <-. rewrite (IH ys' eq_refl). apply perm_swap.
Qed.

Section WalkFacts.

Variables (R : Type) (mk : string -> Z -> R) (key : R -> string).
Hypothesis key_mk : forall i n, key (mk i n) = i.

(** Each turn moves one identifier from the working list to the updates. *)
Lemma match_loop_perm (feed : list watch) :
  forall acc ids out ids',
    match_loop mk feed acc ids = Ok (out, ids') ->
    Permutation (map key out ++ ids') (map key acc ++ ids).
Proof.
  induction feed as [|w rest IH]; intros acc ids out ids' H; simpl in H.
  - injection H as <- <-. reflexivity.
  - destruct (py_in (code w) ids); [|now apply IH].
    destruct (stock_of_count (w_count w)) as [n|e]; simpl in H; [|discriminate].
    destruct (py_remove (code w) ids) as [ids1|e] eqn:Er; simpl in H;
      [|discriminate].
    apply IH in H. rewrite H, map_app. simpl. rewrite key_mk, <- app_assoc.
    simpl. apply Permutation_app_head. symmetry. now apply py_remove_perm.
Qed.



End WalkFacts.

(** X2: whatever the catalog list, repeated identifiers included, the
    identifiers of the stock updates [create_stocks] returns are the
    catalog list rearranged: as many updates as catalog entries, each
    identifier as often as the catalog holds it. *)
Theorem create_stocks_rearranges_catalog (feed : list watch) (C : list string) :
  (forall stocks C',
      Seller.create_stocks feed C = Ok (stocks, C') ->
      Permutation (map Seller.offer_id stocks) C /\
      List.length stocks = List.length C) /\
  (forall wh c stocks C',
      fst (Market.create_stocks feed C wh c) = Ok (stocks, C') ->
      Permutation (map Market.sku stocks) C /\
      List.length stocks = List.length C).
Proof.
  assert (G : forall (R : Type) (mk : string -> Z -> R) (key : R -> string),
             (forall i n, key (mk i n) = i) ->
             forall new C',
               match_loop mk feed [] C = Ok (new, C') ->
               Permutation (map key (new ++ map (fun i => mk i 0) C')) C).
  { intros R mk key Hkey new C' H.
    apply (match_loop_perm mk key Hkey) in H. simpl in H.
    rewrite map_app, map_map.
    rewrite (map_ext (fun i => key (mk i 0)) (fun i => i)) by (intros; apply Hkey).
    now rewrite map_id. }
  split.
  - intros stocks C' H. rewrite seller_create_stocks_eq in H.
    destruct (match_loop seller_stock feed [] C) as [[new C1]|e] eqn:E;
      simpl in H; [|discriminate].
    injection H as <- <-.
    pose proof (G _ seller_stock Seller.offer_id (fun _ _ => eq_refl) _ _ E)
      as HP.
    split; [exact HP|].
    rewrite <- (length_map Seller.offer_id). now apply Permutation_length.
  - intros wh c stocks C' H. rewrite market_create_stocks_eq in H.
    cbn [fst] in H.
    destruct (match_loop _ feed [] C) as [[new C1]|e] eqn:E;
      simpl in H; [|discriminate].
    injection H as <- <-.
    pose proof (G _ (market_stock _ wh) Market.sku (fun _ _ => eq_refl) _ _ E)
      as HP.
    split; [exact HP|].
    rewrite <- (length_map Market.sku). now apply Permutation_length.
Qed.

Lemma create_stocks_rearranges_catalog_witness :
  Permutation (map Seller.offer_id [seller_stock "a" 3; seller_stock "a" 0])
              ["a"; "a"].
Proof.
  apply (proj1 (create_stocks_rearranges_catalog
                  [row "a" "3" "5.00"] ["a"; "a"])
           _ ["a"]).
  reflexivity.
Defined.




(** ** More on prices *)






Lemma all_digits_fixed (d : string) :
  all_digits d = true -> before_first_dot d = d /\ digits_only d = d.
Proof.
  unfold all_digits, digits_only.
  induction d as [|a r IH]; simpl; [split; reflexivity|].
  intros H. apply andb_prop in H as [Ha Hr]. destruct (IH Hr) as [E1 E2].
  rewrite (digit_not_char a "." Ha eq_refl), Ha. simpl.
  now rewrite E1, E2.
Qed.

(** X6: [price_conversion] changes nothing in a text it has produced:
    converting a converted price returns it as it is. *)
Theorem price_conversion_idempotent (v : pyval) (d : string)
    (H : price_conversion v = Ok d) :
  price_conversion (PyStr d) = Ok d.
Proof.
  apply price_conversion_digits in H.
  rewrite price_conversion_text.
  destruct (all_digits_fixed _ H) as [E1 E2]. now rewrite E1, E2.
Qed.

Lemma price_conversion_idempotent_witness :
  price_conversion (PyStr "5990") = Ok "5990".
Proof.
  exact (@price_conversion_idempotent (PyStr "5'990.00 руб.") "5990" eq_refl).
Defined.

(** ** Quantities given as numbers *)

Lemma uint_text_first_digit (d : Decimal.uint) :
  d <> Decimal.Nil ->
  exists a r, NilEmpty.string_of_uint d = String a r /\ is_digit a = true.
Proof.
  destruct d; [congruence| | | | | | | | | |]; intros _; simpl;
    do 2 eexists; split; reflexivity.
Qed.

Lemma parse_uint_acc (d : Decimal.uint) :
  forall a : positive,
    parse_digits true (Z.pos a) (NilEmpty.string_of_uint d)
    = Some (Z.pos (Pos.of_uint_acc d a)).
Proof.
  induction d; intros a; cbn [NilEmpty.string_of_uint parse_digits Pos.of_uint_acc];
    try reflexivity;
    match goal with
    | |- context [is_digit ?c] =>
        change (is_digit c) with true; cbv iota;
        let v := eval vm_compute in (digit_value c) in
        change (digit_value c) with v
    end;
    match goal with
    | |- parse_digits true ?x _ = Some (Z.pos (Pos.of_uint_acc _ ?y)) =>
        replace x with (Z.pos y) by lia
    end;
    apply IHd.
Qed.

Lemma parse_uint (d : Decimal.uint) :
  forall after_digit : bool,
    d <> Decimal.Nil \/ after_digit = true ->
    parse_digits after_digit 0 (NilEmpty.string_of_uint d)
    = Some (Z.of_N (Pos.of_uint d)).
Proof.
  induction d; intros b Hb;
    cbn [NilEmpty.string_of_uint parse_digits Pos.of_uint];
    try (match goal with
         | |- context [is_digit ?c] =>
             change (is_digit c) with true; cbv iota;
             let v := eval vm_compute in (10 * 0 + digit_value c) in
             change (10 * 0 + digit_value c) with v
         end).
  - destruct Hb as [Hb | ->]; [congruence | reflexivity].
  - apply IHd. now right.
  - apply (parse_uint_acc d 1).
  - apply (parse_uint_acc d 2).
  - apply (parse_uint_acc d 3).
  - apply (parse_uint_acc d 4).
  - apply (parse_uint_acc d 5).
  - apply (parse_uint_acc d 6).
  - apply (parse_uint_acc d 7).
  - apply (parse_uint_acc d 8).
  - apply (parse_uint_acc d 9).
Qed.

Lemma parse_int_str_int (z : Z) : parse_int (py_str (PyInt z)) = Some z.
Proof.
  destruct z as [|p|p]; [reflexivity| |].
  - simpl py_str. unfold NilZero.string_of_uint.
    pose proof (DecimalPos.Unsigned.to_uint_nonnil p) as Hnn.
    destruct (Pos.to_uint p) eqn:Ed; try congruence;
      rewrite <- Ed in *;
      (destruct (uint_text_first_digit Hnn) as [a [r [Es Ha]]];
       unfold parse_int; rewrite Es; simpl lstrip;
       rewrite (digit_not_space _ Ha),
         (digit_not_char a "-" Ha eq_refl), (digit_not_char a "+" Ha eq_refl);
       rewrite <- Es, parse_uint by (now left);
       now rewrite DecimalPos.Unsigned.of_to).
  - simpl py_str. unfold NilZero.string_of_uint.
    pose proof (DecimalPos.Unsigned.to_uint_nonnil p) as Hnn.
    destruct (Pos.to_uint p) eqn:Ed; try congruence;
      rewrite <- Ed in *;
      (unfold parse_int; simpl lstrip; simpl Ascii.eqb; cbv iota;
       rewrite parse_uint by (now left);
       now rewrite DecimalPos.Unsigned.of_to).
Qed.

Lemma uint_text_ascii (d : Decimal.uint) :
  ascii_text (NilEmpty.string_of_uint d) = true.
Proof. unfold ascii_text. induction d; simpl; auto. Qed.

Lemma str_int_ascii (z : Z) : ascii_text (py_str (PyInt z)) = true.
Proof.
  destruct z as [|p|p]; [reflexivity| |]; simpl py_str;
    unfold NilZero.string_of_uint;
    pose proof (uint_text_ascii (Pos.to_uint p)) as H;
    destruct (Pos.to_uint p); try reflexivity; try exact H;
    unfold ascii_text in *; cbn [list_ascii_of_string forallb];
    now rewrite H.
Qed.

(** [int(str(z)) == z], where [str(z)] has at most 4300 digits *)
Lemma int_of_str_int (z : Z) :
  int_of_str (py_str (PyInt z))
  = if int_max_str_digits <? count_digits (py_str (PyInt z))
    then Raise ValueError else Ok z.
Proof.
  unfold int_of_str.
  now rewrite (ascii_image_ascii _ (str_int_ascii z)), parse_int_str_int.
Qed.

(** X7: a quantity cell holding an integer and a cell holding the text
    Python prints for that integer are classified alike: the spreadsheet
    reader giving [3] or ["3"] makes no difference to the stock count. *)
Theorem stock_of_count_number_or_text (z : Z) :
  stock_of_count (PyStr (py_str (PyInt z))) = stock_of_count (PyInt z).
Proof.
  rewrite stock_of_count_int, stock_of_count_text, int_of_str_int.
  destruct (String.eqb_spec (py_str (PyInt z)) ">10") as [E|_];
    [now apply str_int_not_more_than_ten in E|].
  destruct (String.eqb_spec (py_str (PyInt z)) "1") as [E|N].
  - rewrite E. apply str_int_one in E. now subst z.
  - destruct (Z.eqb_spec z 1) as [E1|_]; [|reflexivity].
    now apply str_int_one in E1.
Qed.

(** ** Fetching the catalog from Ozon *)

Lemma offer_ids_of_products (products : list Ozon.product) :
  fold_left (fun offer_ids product =>
               offer_ids ++ [Ozon.product_offer_id product])
            products []
  = map Ozon.product_offer_id products.
Proof. apply (append_each Ozon.product_offer_id products []). Qed.

Lemma ozon_products_app (ps qs : list Ozon.listing) :
  ozon_products (ps ++ qs) = ozon_products ps ++ ozon_products qs.
Proof. unfold ozon_products. now rewrite flat_map_app. Qed.

Section OzonFetch.

Variable srv : Ozon.server.

(** The loop, started with [acc] fetched: it goes through the pages that
    leave the count short of the stated total and returns at the first page
    that makes them equal. *)
Lemma fetch_products_stops (pages : list Ozon.listing) (p : Ozon.listing) :
  forall fuel last_id acc sent,
    ozon_serves srv sent last_id (pages ++ [p]) ->
    ozon_unfinished (List.length acc) pages ->
    Ozon.listing_total p
    = Z.of_nat (List.length (acc ++ ozon_products (pages ++ [p]))) ->
    (List.length pages < fuel)%nat ->
    Ozon.fetch_products srv fuel last_id acc sent
    = (Returned (acc ++ ozon_products (pages ++ [p])),
       sent ++ ozon_requests last_id (pages ++ [p])).
Proof.
  induction pages as [|q qs IH]; intros fuel last_id acc sent Hs Hu Ht Hf;
    (destruct fuel as [|fuel]; [simpl in Hf; lia|]);
    simpl in Hs; destruct Hs as [Hq Hs];
    cbn [Ozon.fetch_products]; unfold io_bind, Ozon.get_product_list;
    rewrite Hq.
  - unfold ozon_products in *. simpl in *. rewrite app_nil_r in *.
    rewrite Ht, Z.eqb_refl. reflexivity.
  - simpl in Hu. destruct Hu as [Hne Hu].
    rewrite length_app.
    destruct (Z.eqb_spec (Ozon.listing_total q)
                (Z.of_nat (List.length acc
                           + List.length (Ozon.listing_items q))))
      as [E|_]; [contradiction|].
    rewrite (IH fuel (Ozon.listing_last_id q) (acc ++ Ozon.listing_items q)
                (sent ++ [Ozon.ProductList last_id])).
    + unfold ozon_products. simpl. now rewrite <- !app_assoc.
    + exact Hs.
    + now rewrite length_app.
    + unfold ozon_products in *. simpl in Ht. now rewrite <- app_assoc.
    + simpl in Hf. lia.
Qed.

(** A failing request ends the loop with its failure. *)
Lemma fetch_products_fails (pages : list Ozon.listing) (f : failure) :
  forall fuel last_id acc sent,
    ozon_serves srv sent last_id pages ->
    ozon_unfinished (List.length acc) pages ->
    Ozon.product_list srv (sent ++ ozon_requests last_id pages)
                      (last (map Ozon.listing_last_id pages) last_id)
    = inl f ->
    (List.length pages < fuel)%nat ->
    Ozon.fetch_products srv fuel last_id acc sent
    = (Failed f,
       sent ++ ozon_requests last_id pages
       ++ [Ozon.ProductList (last (map Ozon.listing_last_id pages) last_id)]).
Proof.
  induction pages as [|q qs IH]; intros fuel last_id acc sent Hs Hu Hfail Hf;
    (destruct fuel as [|fuel]; [simpl in Hf; lia|]);
    cbn [Ozon.fetch_products]; unfold io_bind, Ozon.get_product_list.
  - simpl in Hfail. rewrite app_nil_r in Hfail. rewrite Hfail. reflexivity.
  - simpl in Hs. destruct Hs as [Hq Hs]. rewrite Hq.
    simpl in Hu. destruct Hu as [Hne Hu].
    rewrite length_app.
    destruct (Z.eqb_spec (Ozon.listing_total q)
                (Z.of_nat (List.length acc
                           + List.length (Ozon.listing_items q))))
      as [E|_]; [contradiction|].
    assert (El : last (map Ozon.listing_last_id (q :: qs)) last_id
                 = last (map Ozon.listing_last_id qs)
                        (Ozon.listing_last_id q)).
    { simpl. destruct (map Ozon.listing_last_id qs) as [|x xs] eqn:Em;
        [reflexivity|].
      clear. revert x. induction xs as [|y ys IHxs]; intros x;
        [reflexivity|]. exact (IHxs y). }
    rewrite El in *.
    rewrite (IH fuel (Ozon.listing_last_id q) (acc ++ Ozon.listing_items q)
                (sent ++ [Ozon.ProductList last_id])).
    + simpl. now rewrite <- !app_assoc.
    + exact Hs.
    + now rewrite length_app.
    + simpl in Hfail. now rewrite <- app_assoc.
    + simpl in Hf. lia.
Qed.

(** Once more products are held than any total the marketplace will state,
    no turn of the loop can end it. *)
Lemma fetch_products_overshoot (T : Z) :
  (forall sent last_id, exists p,
        Ozon.product_list srv sent last_id = inr p /\
        Ozon.listing_total p <= T) ->
  forall fuel last_id acc sent,
    T < Z.of_nat (List.length acc) ->
    exists sent',
      Ozon.fetch_products srv fuel last_id acc sent = (Running, sent') /\
      List.length sent' = (List.length sent + fuel)%nat.
Proof.
  intros Hsrv. induction fuel as [|fuel IH]; intros last_id acc sent Hacc.
  - exists sent. split; [reflexivity | lia].
  - cbn [Ozon.fetch_products]. unfold io_bind, Ozon.get_product_list.
    destruct (Hsrv sent last_id) as [p [-> Hp]].
    rewrite length_app.
    destruct (Z.eqb_spec (Ozon.listing_total p)
                (Z.of_nat (List.length acc
                           + List.length (Ozon.listing_items p))))
      as [E|_]; [lia|].
    destruct (IH (Ozon.listing_last_id p) (acc ++ Ozon.listing_items p)
                 (sent ++ [Ozon.ProductList last_id])) as [sent' [-> Hl]].
    + rewrite length_app. lia.
    + exists sent'. split; [reflexivity|].
      rewrite Hl, length_app. simpl. lia.
Qed.

(** Only product-list requests are made, at most one per turn. *)
Lemma fetch_products_only_lists :
  forall fuel last_id acc sent,
    exists new,
      snd (Ozon.fetch_products srv fuel last_id acc sent) = sent ++ new /\
      Forall ozon_is_listing new /\ (List.length new <= fuel)%nat.
Proof.
  induction fuel as [|fuel IH]; intros last_id acc sent.
  - exists []. simpl. rewrite app_nil_r. repeat split; [constructor | lia].
  - cbn [Ozon.fetch_products]. unfold io_bind, Ozon.get_product_list.
    destruct (Ozon.product_list srv sent last_id) as [f|p].
    + exists [Ozon.ProductList last_id]. simpl.
      repeat split; [repeat constructor | lia].
    + destruct (Ozon.listing_total p =? _).
      * exists [Ozon.ProductList last_id]. simpl.
        repeat split; [repeat constructor | lia].
      * destruct (IH (Ozon.listing_last_id p) (acc ++ Ozon.listing_items p)
                     (sent ++ [Ozon.ProductList last_id]))
          as [new [-> [Hn Hl]]].
        exists (Ozon.ProductList last_id :: new). rewrite <- app_assoc.
        repeat split; [constructor; [exact I | assumption] | simpl; lia].
Qed.

End OzonFetch.

(** X8: seller.py's [get_offer_ids] goes on while the number of products
    fetched differs from the total the last page states, and returns at the
    first page that makes them equal: the offer identifiers of the pages
    read, in order, after one request per page, the first with the empty
    [last_id] and each next one with the [last_id] of the page before. *)
Theorem ozon_get_offer_ids_stops (srv : Ozon.server)
    (pages : list Ozon.listing) (p : Ozon.listing) (fuel : nat)
    (sent : list Ozon.request)
    (Hs : ozon_serves srv sent EmptyString (pages ++ [p]))
    (Hu : ozon_unfinished 0 pages)
    (Ht : Ozon.listing_total p
          = Z.of_nat (List.length (ozon_products (pages ++ [p]))))
    (Hf : (List.length pages < fuel)%nat) :
  Ozon.get_offer_ids srv fuel sent
  = (Returned (map Ozon.product_offer_id (ozon_products (pages ++ [p]))),
     sent ++ ozon_requests EmptyString (pages ++ [p])).
Proof.
  unfold Ozon.get_offer_ids, io_bind.
  rewrite (@fetch_products_stops srv pages p fuel EmptyString [] sent Hs Hu Ht Hf).
  unfold io_ret. simpl app. now rewrite offer_ids_of_products.
Qed.

Lemma ozon_get_offer_ids_stops_witness :
  Ozon.get_offer_ids ozon_demo 5 []
  = (Returned ["48852"; "70001"; "99999"],
     [Ozon.ProductList EmptyString; Ozon.ProductList "p2"]).
Proof.
  apply (@ozon_get_offer_ids_stops ozon_demo [ozon_page_1] ozon_page_2 5 []).
  - simpl. repeat split.
  - simpl. split; [discriminate | exact I].
  - reflexivity.
  - simpl. lia.
Defined.

Lemma honest_unfinished (N : Z) (pages : list Ozon.listing) :
  forall count,
    Forall (fun q => Ozon.listing_total q = N) pages ->
    Z.of_nat (count + List.length (ozon_products pages)) < N ->
    ozon_unfinished count pages.
Proof.
  induction pages as [|q qs IH]; intros count HN Hlt; simpl; [exact I|].
  inversion HN as [|? ? Hq Hqs]; subst.
  unfold ozon_products in Hlt. simpl in Hlt. rewrite length_app in Hlt.
  split; [lia|]. apply IH; [assumption|].
  unfold ozon_products. lia.
Qed.

(** X9: against a marketplace that hands out a catalog page by page, every
    page stating the size of the whole catalog and the last page not empty,
    seller.py's [get_offer_ids] returns the offer identifiers of the whole
    catalog, in catalog order, after one request per page. *)
Theorem ozon_get_offer_ids_whole_catalog (srv : Ozon.server)
    (pages : list Ozon.listing) (p : Ozon.listing)
    (catalog : list Ozon.product) (fuel : nat) (sent : list Ozon.request)
    (Hs : ozon_serves srv sent EmptyString (pages ++ [p]))
    (Hc : ozon_products (pages ++ [p]) = catalog)
    (Ht : Forall (fun q => Ozon.listing_total q
                           = Z.of_nat (List.length catalog)) (pages ++ [p]))
    (Hp : Ozon.listing_items p <> [] \/ pages = [])
    (Hf : (List.length pages < fuel)%nat) :
  Ozon.get_offer_ids srv fuel sent
  = (Returned (map Ozon.product_offer_id catalog),
     sent ++ ozon_requests EmptyString (pages ++ [p])) /\
  List.length (ozon_requests EmptyString (pages ++ [p]))
  = S (List.length pages).
Proof.
  apply Forall_app in Ht as [Hpages Hlast].
  inversion Hlast as [|? ? Hpt _]; subst.
  assert (Hu : ozon_unfinished 0 pages).
  { destruct Hp as [Hp | ->]; [|exact I].
    apply (@honest_unfinished _ pages 0%nat Hpages).
    rewrite ozon_products_app, length_app.
    unfold ozon_products. simpl. rewrite app_nil_r.
    destruct (Ozon.listing_items p); [congruence | simpl; lia]. }
  split.
  - unfold Ozon.get_offer_ids, io_bind.
    rewrite (@fetch_products_stops srv pages p fuel EmptyString [] sent
                                   Hs Hu Hpt Hf).
    unfold io_ret. simpl app. now rewrite offer_ids_of_products.
  - clear. generalize EmptyString.
    induction pages as [|q qs IH]; intros s; simpl; [reflexivity|].
    now rewrite IH.
Qed.

Lemma ozon_get_offer_ids_whole_catalog_witness :
  Ozon.get_offer_ids ozon_demo 5 []
  = (Returned ["48852"; "70001"; "99999"],
     [Ozon.ProductList EmptyString; Ozon.ProductList "p2"]).
Proof.
  apply (@ozon_get_offer_ids_whole_catalog
           ozon_demo [ozon_page_1] ozon_page_2
           [{| Ozon.product_offer_id := "48852" |};
            {| Ozon.product_offer_id := "70001" |};
            {| Ozon.product_offer_id := "99999" |}] 5 []).
  - simpl. repeat split.
  - reflexivity.
  - repeat constructor.
  - left. discriminate.
  - simpl. lia.
Defined.

(** X10: when a product-list request fails, seller.py's [get_offer_ids]
    fails with the failure of that request; the pages read before are
    dropped and no request follows the failed one. *)
Theorem ozon_get_offer_ids_fails (srv : Ozon.server)
    (pages : list Ozon.listing) (f : failure) (fuel : nat)
    (sent : list Ozon.request)
    (Hs : ozon_serves srv sent EmptyString pages)
    (Hu : ozon_unfinished 0 pages)
    (Hfail : Ozon.product_list srv (sent ++ ozon_requests EmptyString pages)
               (last (map Ozon.listing_last_id pages) EmptyString)
             = inl f)
    (Hf : (List.length pages < fuel)%nat) :
  Ozon.get_offer_ids srv fuel sent
  = (Failed f,
     sent ++ ozon_requests EmptyString pages
     ++ [Ozon.ProductList (last (map Ozon.listing_last_id pages) EmptyString)]).
Proof.
  unfold Ozon.get_offer_ids, io_bind.
  now rewrite (@fetch_products_fails srv pages f fuel EmptyString [] sent
                                     Hs Hu Hfail Hf).
Qed.

Lemma ozon_get_offer_ids_fails_witness :
  Ozon.get_offer_ids ozon_timeout 5 []
  = (Failed ReadTimeout,
     [Ozon.ProductList EmptyString; Ozon.ProductList "p2"]).
Proof.
  apply (@ozon_get_offer_ids_fails ozon_timeout [ozon_page_1] ReadTimeout 5 []).
  - simpl. repeat split.
  - simpl. split; [discriminate | exact I].
  - reflexivity.
  - simpl. lia.
Defined.

(** X11: the loop of seller.py's [get_offer_ids] ends only on equality.
    If the first page alone holds more products than any total the
    marketplace states, the count has passed the total for good: the call
    neither returns nor fails, it makes one request per turn without end. *)
Theorem ozon_get_offer_ids_overshoot (srv : Ozon.server) (T : Z)
    (sent : list Ozon.request) (p0 : Ozon.listing)
    (Hsrv : forall sent last_id, exists p,
          Ozon.product_list srv sent last_id = inr p /\
          Ozon.listing_total p <= T)
    (H0 : Ozon.product_list srv sent EmptyString = inr p0)
    (Hover : T < Z.of_nat (List.length (Ozon.listing_items p0))) :
  forall fuel,
    fst (Ozon.get_offer_ids srv fuel sent) = Running /\
    List.length (snd (Ozon.get_offer_ids srv fuel sent))
    = (List.length sent + fuel)%nat.
Proof.
  intros fuel. unfold Ozon.get_offer_ids, io_bind.
  destruct fuel as [|fuel]; [simpl; split; [reflexivity | lia]|].
  cbn [Ozon.fetch_products]. unfold io_bind, Ozon.get_product_list.
  rewrite H0.
  change ([] ++ Ozon.listing_items p0) with (Ozon.listing_items p0).
  destruct (Hsrv sent EmptyString) as [p [Ep Hp]].
  assert (p = p0) by congruence. subst p.
  destruct (Z.eqb_spec (Ozon.listing_total p0)
              (Z.of_nat (List.length (Ozon.listing_items p0))))
    as [E|_]; [lia|].
  destruct (@fetch_products_overshoot srv T Hsrv fuel
              (Ozon.listing_last_id p0) (Ozon.listing_items p0)
              (sent ++ [Ozon.ProductList EmptyString]) Hover)
    as [sent' [-> Hl]].
  simpl. split; [reflexivity|]. rewrite Hl, length_app. simpl. lia.
Qed.

Lemma ozon_get_offer_ids_overshoot_witness :
  fst (Ozon.get_offer_ids ozon_over 7 []) = Running.
Proof.
  refine (proj1 (@ozon_get_offer_ids_overshoot ozon_over 1 [] ozon_page_over
                                               _ eq_refl _ 7%nat)).
  - intros sent last_id. exists ozon_page_over.
    split; [reflexivity|]. simpl. lia.
  - simpl. lia.
Defined.

(** ** Fetching the catalog from Yandex.Market *)

Lemma shop_skus_of_entries (entries : list Yandex.entry) :
  fold_left (fun offer_ids product => offer_ids ++ [Yandex.shopSku product])
            entries []
  = map Yandex.shopSku entries.
Proof. apply (append_each Yandex.shopSku entries []). Qed.

Lemma yandex_token_continue (q : Yandex.listing) :
  yandex_token q <> EmptyString ->
  Yandex.nextPageToken q = Some (yandex_token q) /\
  String.eqb (yandex_token q) EmptyString = false.
Proof.
  unfold yandex_token. destruct (Yandex.nextPageToken q) as [t|];
    [|congruence].
  intros Hne. split; [reflexivity | now apply String.eqb_neq].
Qed.

Section YandexFetch.

Variable srv : Yandex.server.

Lemma fetch_entries_stops (pages : list Yandex.listing) (p : Yandex.listing) :
  forall fuel campaign_id page acc w,
    yandex_serves srv (Yandex.sent w) campaign_id page (pages ++ [p]) ->
    Forall (fun q => yandex_token q <> EmptyString) pages ->
    yandex_token p = EmptyString ->
    (List.length pages < fuel)%nat ->
    Yandex.fetch_entries srv fuel campaign_id page acc w
    = (Returned (acc ++ yandex_entries (pages ++ [p])),
       {| Yandex.sent := Yandex.sent w
                         ++ yandex_requests campaign_id page (pages ++ [p]);
          Yandex.now := Yandex.now w |}).
Proof.
  induction pages as [|q qs IH]; intros fuel c page acc w Hs Hgo Hstop Hf;
    (destruct fuel as [|fuel]; [simpl in Hf; lia|]);
    simpl in Hs; destruct Hs as [Hq Hs];
    cbn [Yandex.fetch_entries]; unfold io_bind, Yandex.get_product_list;
    rewrite Hq.
  - unfold yandex_entries. simpl. rewrite app_nil_r.
    unfold yandex_token in Hstop.
    destruct (Yandex.nextPageToken p) as [t|]; [|reflexivity].
    subst t. reflexivity.
  - inversion Hgo as [|? ? Hq1 Hqs]; subst.
    destruct (@yandex_token_continue q Hq1) as [-> ->].
    rewrite (IH fuel c (yandex_token q) (acc ++ Yandex.offerMappingEntries q)
                (Yandex.send w (Yandex.OfferMappingEntries c page)));
      [| exact Hs | assumption | assumption | simpl in Hf; lia].
    unfold yandex_entries. simpl. now rewrite <- !app_assoc.
Qed.

(** While every page hands on a token, no turn of the loop ends it. *)
Lemma fetch_entries_goes_on :
  (forall sent campaign_id page, exists p,
        Yandex.offer_mapping_entries srv sent campaign_id page = inr p /\
        yandex_token p <> EmptyString) ->
  forall fuel campaign_id page acc w,
    exists w',
      Yandex.fetch_entries srv fuel campaign_id page acc w = (Running, w') /\
      List.length (Yandex.sent w')
      = (List.length (Yandex.sent w) + fuel)%nat.
Proof.
  intros Hsrv. induction fuel as [|fuel IH]; intros c page acc w.
  - exists w. split; [reflexivity | lia].
  - cbn [Yandex.fetch_entries]. unfold io_bind, Yandex.get_product_list.
    destruct (Hsrv (Yandex.sent w) c page) as [p [-> Hp]].
    destruct (@yandex_token_continue p Hp) as [-> ->].
    destruct (IH c (yandex_token p) (acc ++ Yandex.offerMappingEntries p)
                 (Yandex.send w (Yandex.OfferMappingEntries c page)))
      as [w' [-> Hl]].
    exists w'. split; [reflexivity|].
    rewrite Hl. simpl. rewrite length_app. simpl. lia.
Qed.

(** Only offer-mapping requests of the campaign are made, and the clock is
    not read. *)
Lemma fetch_entries_only_lists :
  forall fuel campaign_id page acc w,
    exists new,
      snd (Yandex.fetch_entries srv fuel campaign_id page acc w)
      = {| Yandex.sent := Yandex.sent w ++ new; Yandex.now := Yandex.now w |}
      /\ Forall (yandex_stock_sync campaign_id) new.
Proof.
  induction fuel as [|fuel IH]; intros c page acc w.
  - exists []. simpl. rewrite app_nil_r. split; [now destruct w | constructor].
  - cbn [Yandex.fetch_entries]. unfold io_bind, Yandex.get_product_list.
    assert (Hone : Forall (yandex_stock_sync c)
                          [Yandex.OfferMappingEntries c page])
      by (repeat constructor).
    destruct (Yandex.offer_mapping_entries srv (Yandex.sent w) c page)
      as [f|p].
    + now exists [Yandex.OfferMappingEntries c page].
    + destruct (Yandex.nextPageToken p) as [t|].
      * destruct (String.eqb t EmptyString).
        -- now exists [Yandex.OfferMappingEntries c page].
        -- destruct (IH c t (acc ++ Yandex.offerMappingEntries p)
                        (Yandex.send w (Yandex.OfferMappingEntries c page)))
             as [new [-> Hn]].
           exists (Yandex.OfferMappingEntries c page :: new). simpl.
           rewrite <- app_assoc. split; [reflexivity|].
           constructor; [reflexivity | assumption].
      * now exists [Yandex.OfferMappingEntries c page].
Qed.

End YandexFetch.

(** X12: market.py's [get_offer_ids] reads pages until one hands on no
    token (none at all, or the empty text) and returns the [shopSku] of
    every entry read, in order; its first request carries the empty token
    and each next one the token of the page before, all for the campaign
    asked; the clock is left alone. *)
Theorem yandex_get_offer_ids_stops (srv : Yandex.server)
    (pages : list Yandex.listing) (p : Yandex.listing) (fuel : nat)
    (campaign_id : string) (w : Yandex.world)
    (Hs : yandex_serves srv (Yandex.sent w) campaign_id EmptyString
                        (pages ++ [p]))
    (Hgo : Forall (fun q => yandex_token q <> EmptyString) pages)
    (Hstop : yandex_token p = EmptyString)
    (Hf : (List.length pages < fuel)%nat) :
  Yandex.get_offer_ids srv fuel campaign_id w
  = (Returned (map Yandex.shopSku (yandex_entries (pages ++ [p]))),
     {| Yandex.sent := Yandex.sent w
                       ++ yandex_requests campaign_id EmptyString
                                          (pages ++ [p]);
        Yandex.now := Yandex.now w |}).
Proof.
  unfold Yandex.get_offer_ids, io_bind.
  rewrite (@fetch_entries_stops srv pages p fuel campaign_id EmptyString []
                                w Hs Hgo Hstop Hf).
  unfold io_ret. simpl app. now rewrite shop_skus_of_entries.
Qed.

Lemma yandex_get_offer_ids_stops_witness :
  Yandex.get_offer_ids yandex_demo 5 "fbs" world_0
  = (Returned ["48852"; "99999"],
     {| Yandex.sent := [Yandex.OfferMappingEntries "fbs" EmptyString;
                        Yandex.OfferMappingEntries "fbs" "t1"];
        Yandex.now := clock_0 |}).
Proof.
  apply (@yandex_get_offer_ids_stops yandex_demo [yandex_page_1] yandex_page_2
                                     5 "fbs" world_0).
  - simpl. repeat split.
  - repeat constructor. discriminate.
  - reflexivity.
  - simpl. lia.
Defined.

(** X13: against a marketplace whose every page hands on a token,
    market.py's [get_offer_ids] neither returns nor fails: it makes one
    request per turn without end. *)
Theorem yandex_get_offer_ids_goes_on (srv : Yandex.server)
    (Hsrv : forall sent campaign_id page, exists p,
          Yandex.offer_mapping_entries srv sent campaign_id page = inr p /\
          yandex_token p <> EmptyString)
    (fuel : nat) (campaign_id : string) (w : Yandex.world) :
  fst (Yandex.get_offer_ids srv fuel campaign_id w) = Running /\
  List.length (Yandex.sent (snd (Yandex.get_offer_ids srv fuel campaign_id w)))
  = (List.length (Yandex.sent w) + fuel)%nat.
Proof.
  unfold Yandex.get_offer_ids, io_bind.
  destruct (@fetch_entries_goes_on srv Hsrv fuel campaign_id EmptyString [] w)
    as [w' [-> Hl]].
  split; [reflexivity | exact Hl].
Qed.

Lemma yandex_get_offer_ids_goes_on_witness :
  fst (Yandex.get_offer_ids yandex_endless 9 "fbs" world_0) = Running.
Proof.
  refine (proj1 (@yandex_get_offer_ids_goes_on yandex_endless _ 9%nat "fbs"
                                               world_0)).
  intros sent campaign_id page. exists yandex_page_1.
  split; [reflexivity | discriminate].
Defined.

(** ** Sending the batches *)

Lemma divide_shape (A : Type) (L : list A) (n : Z) (batches : list (list A)) :
  0 < n -> divide L n = Ok batches ->
  List.concat batches = L /\
  Forall (fun b => b <> [] /\ Z.of_nat (List.length b) <= n) batches.
Proof.
  intros Hn H. rewrite divide_windows in H by assumption. injection H as <-.
  pose proof (@ceil_div_covers (Z.of_nat (List.length L)) n
                               ltac:(lia) Hn) as [Hk Hcover].
  pose proof (@ceil_div_least (Z.of_nat (List.length L)) n
                              ltac:(lia) Hn) as Hleast.
  split.
  - rewrite windows_concat. apply firstn_all2. nia.
  - apply Forall_forall. intros b Hb. apply in_map_iff in Hb as [j [<- Hj]].
    apply in_seq in Hj. split.
    + intros E. apply (f_equal (@List.length A)) in E.
      rewrite window_length in E. simpl in E. nia.
    + rewrite window_length. lia.
Qed.

Section Dispatch.

Variables (W A : Type) (body : A -> io W unit).
Variables (reply : W -> A -> option failure) (push : W -> A -> W).
Hypothesis body_eq :
  forall x w,
    body x w = (match reply w x with
                | None => Returned tt
                | Some f => Failed f
                end, push w x).

(** A [for] loop of requests ends in one of two ways: every request was
    accepted and all were made, or one was refused, the ones before it were
    made and accepted, and none after it was made. *)
Lemma for_each_outcome (l : list A) :
  forall w,
    (for_each body l w = (Returned tt, fold_left push l w) /\
     forall pre x post, l = pre ++ x :: post ->
                        reply (fold_left push pre w) x = None) \/
    (exists pre x post f,
        l = pre ++ x :: post /\
        reply (fold_left push pre w) x = Some f /\
        for_each body l w = (Failed f, fold_left push (pre ++ [x]) w)).
Proof.
  induction l as [|a l IH]; intros w.
  - left. split; [reflexivity|]. intros [|? ?] x post E; discriminate E.
  - cbn [for_each]. unfold io_bind. rewrite body_eq.
    destruct (reply w a) as [f|] eqn:Ea.
    + right. exists [], a, l, f. repeat split. assumption.
    + destruct (IH (push w a)) as [[E Hall] | [pre [x [post [f [El [Er E]]]]]]].
      * left. split; [exact E|].
        intros [|y pre] x post Epre; simpl in Epre; injection Epre as -> ->.
        -- exact Ea.
        -- simpl. now apply (Hall pre x post).
      * right. exists (a :: pre), x, post, f. subst l. repeat split; assumption.
Qed.

End Dispatch.

Lemma ozon_stocks_pushed (l : list (list Seller.stock_item))
    (sent : list Ozon.request) :
  fold_left (fun s b => s ++ [Ozon.ImportStocks b]) l sent
  = sent ++ map Ozon.ImportStocks l.
Proof. apply (append_each Ozon.ImportStocks l sent). Qed.

Lemma ozon_prices_pushed (l : list (list Seller.price_item))
    (sent : list Ozon.request) :
  fold_left (fun s b => s ++ [Ozon.ImportPrices b]) l sent
  = sent ++ map Ozon.ImportPrices l.
Proof. apply (append_each Ozon.ImportPrices l sent). Qed.

Lemma ozon_update_stocks_outcome (srv : Ozon.server)
    (l : list (list Seller.stock_item)) (sent : list Ozon.request) :
  (for_each (Ozon.update_stocks srv) l sent
   = (Returned tt, sent ++ map Ozon.ImportStocks l) /\
   forall pre x post, l = pre ++ x :: post ->
     Ozon.import_stocks srv (sent ++ map Ozon.ImportStocks pre) x = None) \/
  (exists pre x post f,
      l = pre ++ x :: post /\
      Ozon.import_stocks srv (sent ++ map Ozon.ImportStocks pre) x = Some f /\
      for_each (Ozon.update_stocks srv) l sent
      = (Failed f, sent ++ map Ozon.ImportStocks (pre ++ [x]))).
Proof.
  destruct (@for_each_outcome _ _ (Ozon.update_stocks srv)
              (Ozon.import_stocks srv)
              (fun s b => s ++ [Ozon.ImportStocks b])
              (fun _ _ => eq_refl) l sent)
    as [[E Hall] | [pre [x [post [f [El [Er E]]]]]]].
  - left. rewrite ozon_stocks_pushed in E. split; [exact E|].
    intros pre x post El. rewrite <- ozon_stocks_pushed. now apply (Hall pre x post).
  - right. exists pre, x, post, f.
    rewrite !ozon_stocks_pushed in *. repeat split; assumption.
Qed.

Lemma ozon_update_price_outcome (srv : Ozon.server)
    (l : list (list Seller.price_item)) (sent : list Ozon.request) :
  (for_each (Ozon.update_price srv) l sent
   = (Returned tt, sent ++ map Ozon.ImportPrices l) /\
   forall pre x post, l = pre ++ x :: post ->
     Ozon.import_prices srv (sent ++ map Ozon.ImportPrices pre) x = None) \/
  (exists pre x post f,
      l = pre ++ x :: post /\
      Ozon.import_prices srv (sent ++ map Ozon.ImportPrices pre) x = Some f /\
      for_each (Ozon.update_price srv) l sent
      = (Failed f, sent ++ map Ozon.ImportPrices (pre ++ [x]))).
Proof.
  destruct (@for_each_outcome _ _ (Ozon.update_price srv)
              (Ozon.import_prices srv)
              (fun s b => s ++ [Ozon.ImportPrices b])
              (fun _ _ => eq_refl) l sent)
    as [[E Hall] | [pre [x [post [f [El [Er E]]]]]]].
  - left. rewrite ozon_prices_pushed in E. split; [exact E|].
    intros pre x post El. rewrite <- ozon_prices_pushed. now apply (Hall pre x post).
  - right. exists pre, x, post, f.
    rewrite !ozon_prices_pushed in *. repeat split; assumption.
Qed.

(** ** Uploading to Ozon *)

(** X14: when seller.py's [upload_stocks] returns, the stock updates it
    returns are those [create_stocks] computed from the catalog just
    fetched; after the catalog requests it has sent them all, in order, in
    batches of 1 to 100 that the marketplace accepted one by one, and
    nothing else; the first list it returns holds the updates with a
    non-zero stock, in the same order. *)
Theorem ozon_upload_stocks_returns (srv : Ozon.server) (fuel : nat)
    (feed : list watch) (sent sent' : list Ozon.request)
    (not_empty stocks : list Seller.stock_item)
    (H : Ozon.upload_stocks srv fuel feed sent
         = (Returned (not_empty, stocks), sent')) :
  exists offer_ids sent1 left batches,
    Ozon.get_offer_ids srv fuel sent = (Returned offer_ids, sent1) /\
    Seller.create_stocks feed offer_ids = Ok (stocks, left) /\
    sent' = sent1 ++ map Ozon.ImportStocks batches /\
    List.concat batches = stocks /\
    Forall (fun b => b <> [] /\ Z.of_nat (List.length b) <= 100) batches /\
    (forall pre b post,
        batches = pre ++ b :: post ->
        Ozon.import_stocks srv (sent1 ++ map Ozon.ImportStocks pre) b = None) /\
    not_empty = filter (fun s => negb (Seller.stock s =? 0)) stocks.
Proof.
  unfold Ozon.upload_stocks, io_bind in H.
  destruct (Ozon.get_offer_ids srv fuel sent) as [[ids|f|] s1] eqn:Eg;
    try discriminate.
  unfold io_lift in H.
  destruct (Seller.create_stocks feed ids) as [[stocks0 left]|e] eqn:Ec;
    try discriminate.
  destruct (divide stocks0 100) as [batches|e] eqn:Ed; try discriminate.
  destruct (ozon_update_stocks_outcome srv batches s1)
    as [[E Hall] | [pre [x [post [f [El [Er E]]]]]]];
    rewrite E in H; [|discriminate].
  unfold io_ret in H. injection H as <- <- <-.
  destruct (@divide_shape _ stocks0 100 batches ltac:(lia) Ed) as [Hcat Hsz].
  exists ids, s1, left, batches. repeat split; try assumption; reflexivity.
Qed.

Lemma ozon_upload_stocks_returns_witness :
  exists offer_ids sent1 left batches,
    Ozon.get_offer_ids ozon_demo 5 [] = (Returned offer_ids, sent1) /\
    Seller.create_stocks feed_48852 offer_ids
    = Ok ([seller_stock "48852" 3; seller_stock "70001" 0;
           seller_stock "99999" 0], left) /\
    [Ozon.ProductList EmptyString; Ozon.ProductList "p2";
     Ozon.ImportStocks [seller_stock "48852" 3; seller_stock "70001" 0;
                        seller_stock "99999" 0]]
    = sent1 ++ map Ozon.ImportStocks batches /\
    List.concat batches
    = [seller_stock "48852" 3; seller_stock "70001" 0; seller_stock "99999" 0]
    /\
    Forall (fun b => b <> [] /\ Z.of_nat (List.length b) <= 100) batches /\
    (forall pre b post,
        batches = pre ++ b :: post ->
        Ozon.import_stocks ozon_demo (sent1 ++ map Ozon.ImportStocks pre) b
        = None) /\
    [seller_stock "48852" 3]
    = filter (fun s => negb (Seller.stock s =? 0))
             [seller_stock "48852" 3; seller_stock "70001" 0;
              seller_stock "99999" 0].
Proof.
  exact (@ozon_upload_stocks_returns ozon_demo 5 feed_48852 [] _ _ _ eq_refl).
Defined.

(** X15: when the catalog was fetched and reconciled and seller.py's
    [upload_stocks] fails all the same, a stock batch was refused: the
    failure is the marketplace's answer to that batch, the batches before
    it were accepted and stay sent, and no batch after it is sent. *)
Theorem ozon_upload_stocks_refused (srv : Ozon.server) (fuel : nat)
    (feed : list watch) (sent sent1 sent' : list Ozon.request)
    (offer_ids left : list string) (stocks : list Seller.stock_item)
    (f : failure)
    (Hfetch : Ozon.get_offer_ids srv fuel sent = (Returned offer_ids, sent1))
    (Hrec : Seller.create_stocks feed offer_ids = Ok (stocks, left))
    (H : Ozon.upload_stocks srv fuel feed sent = (Failed f, sent')) :
  exists pre b post,
    divide stocks 100 = Ok (pre ++ b :: post) /\
    Ozon.import_stocks srv (sent1 ++ map Ozon.ImportStocks pre) b = Some f /\
    sent' = sent1 ++ map Ozon.ImportStocks (pre ++ [b]).
Proof.
  unfold Ozon.upload_stocks, io_bind in H. rewrite Hfetch in H.
  unfold io_lift in H. rewrite Hrec in H.
  destruct (@divide_total _ stocks 100 ltac:(lia)) as [batches Ed].
  rewrite Ed in H.
  destruct (ozon_update_stocks_outcome srv batches sent1)
    as [[E Hall] | [pre [x [post [f' [El [Er E]]]]]]];
    rewrite E in H; [discriminate|].
  injection H as <- <-. subst batches.
  exists pre, x, post. repeat split; assumption.
Qed.

Lemma ozon_upload_stocks_refused_witness :
  exists pre b post,
    divide [seller_stock "48852" 3; seller_stock "70001" 0;
            seller_stock "99999" 0] 100
    = Ok (pre ++ b :: post) /\
    Ozon.import_stocks
      ozon_refusing
      ([Ozon.ProductList EmptyString; Ozon.ProductList "p2"]
       ++ map Ozon.ImportStocks pre) b
    = Some HTTPError /\
    [Ozon.ProductList EmptyString; Ozon.ProductList "p2";
     Ozon.ImportStocks [seller_stock "48852" 3; seller_stock "70001" 0;
                        seller_stock "99999" 0]]
    = [Ozon.ProductList EmptyString; Ozon.ProductList "p2"]
      ++ map Ozon.ImportStocks (pre ++ [b]).
Proof.
  exact (@ozon_upload_stocks_refused
           ozon_refusing 5 feed_48852 [] _ _ _ ["70001"; "99999"] _ HTTPError
           eq_refl eq_refl eq_refl).
Defined.

(** X16: when seller.py's [upload_prices] returns, the price updates it
    returns are those [create_prices] computed from the catalog just
    fetched, one per feed row whose code the catalog lists; after the
    catalog requests it has sent them all, in order, in batches of 1 to
    1000 that the marketplace accepted, and nothing else. *)
Theorem ozon_upload_prices_returns (srv : Ozon.server) (fuel : nat)
    (feed : list watch) (sent sent' : list Ozon.request)
    (prices : list Seller.price_item)
    (H : Ozon.upload_prices srv fuel feed sent = (Returned prices, sent')) :
  exists offer_ids sent1 batches,
    Ozon.get_offer_ids srv fuel sent = (Returned offer_ids, sent1) /\
    Seller.create_prices feed offer_ids = Ok prices /\
    map Seller.price_offer_id prices = matched_codes feed offer_ids /\
    sent' = sent1 ++ map Ozon.ImportPrices batches /\
    List.concat batches = prices /\
    Forall (fun b => b <> [] /\ Z.of_nat (List.length b) <= 1000) batches.
Proof.
  unfold Ozon.upload_prices, io_bind in H.
  destruct (Ozon.get_offer_ids srv fuel sent) as [[ids|f|] s1] eqn:Eg;
    try discriminate.
  unfold io_lift in H.
  destruct (Seller.create_prices feed ids) as [prices0|e] eqn:Ec;
    try discriminate.
  destruct (divide prices0 1000) as [batches|e] eqn:Ed; try discriminate.
  destruct (ozon_update_price_outcome srv batches s1)
    as [[E Hall] | [pre [x [post [f [El [Er E]]]]]]];
    rewrite E in H; [|discriminate].
  unfold io_ret in H. injection H as <- <-.
  destruct (@divide_shape _ prices0 1000 batches ltac:(lia) Ed) as [Hcat Hsz].
  exists ids, s1, batches. repeat split; try assumption.
  unfold Seller.create_prices in Ec. rewrite seller_price_feed_loop in Ec.
  exact (proj1 (@price_loop_law _ _ price_conversion seller_price
                                Seller.price_offer_id (fun _ _ => eq_refl)
                                feed ids prices0 Ec)).
Qed.

Lemma ozon_upload_prices_returns_witness :
  exists offer_ids sent1 batches,
    Ozon.get_offer_ids ozon_demo 5 [] = (Returned offer_ids, sent1) /\
    Seller.create_prices feed_48852 offer_ids
    = Ok [seller_price "48852" "24570"] /\
    map Seller.price_offer_id [seller_price "48852" "24570"]
    = matched_codes feed_48852 offer_ids /\
    [Ozon.ProductList EmptyString; Ozon.ProductList "p2";
     Ozon.ImportPrices [seller_price "48852" "24570"]]
    = sent1 ++ map Ozon.ImportPrices batches /\
    List.concat batches = [seller_price "48852" "24570"] /\
    Forall (fun b => b <> [] /\ Z.of_nat (List.length b) <= 1000) batches.
Proof.
  exact (@ozon_upload_prices_returns ozon_demo 5 feed_48852 [] _ _ eq_refl).
Defined.

Lemma ozon_get_offer_ids_only_lists (srv : Ozon.server) (fuel : nat)
    (sent : list Ozon.request) :
  exists new,
    snd (Ozon.get_offer_ids srv fuel sent) = sent ++ new /\
    Forall ozon_is_listing new /\ (List.length new <= fuel)%nat.
Proof.
  unfold Ozon.get_offer_ids, io_bind.
  destruct (fetch_products_only_lists srv fuel EmptyString [] sent)
    as [new [E Hn]].
  exists new. split; [|exact Hn].
  destruct (Ozon.fetch_products srv fuel EmptyString [] sent) as [[a|f|] s1];
    exact E.
Qed.

Lemma listing_not_prices (new : list Ozon.request) :
  Forall ozon_is_listing new -> Forall ozon_not_prices new.
Proof.
  apply Forall_impl. intros [l|b|b] H; simpl in *; tauto.
Qed.

Lemma stocks_not_prices (batches : list (list Seller.stock_item)) :
  Forall ozon_not_prices (map Ozon.ImportStocks batches).
Proof.
  apply Forall_forall. intros r Hr. apply in_map_iff in Hr as [b [<- _]].
  exact I.
Qed.

(** X17: seller.py's [main] never lets a failure out, and over a
    duplicate-free catalog it never sends a price update, whatever the
    marketplace answers and whatever the feed holds: [create_stocks] has
    emptied the list of every matched identifier before [create_prices]
    reads it. *)
Theorem ozon_main_sends_no_prices (srv : Ozon.server) (fuel : nat)
    (download : failure + list watch) (sent : list Ozon.request)
    (Hnd : forall offer_ids sent1,
        Ozon.get_offer_ids srv fuel sent = (Returned offer_ids, sent1) ->
        NoDup offer_ids) :
  (forall f, fst (Ozon.main srv fuel download sent) <> Failed f) /\
  extends ozon_not_prices sent (snd (Ozon.main srv fuel download sent)).
Proof.
  destruct (ozon_get_offer_ids_only_lists srv fuel sent) as [new [Es [Hl _]]].
  apply listing_not_prices in Hl.
  assert (Hbase : extends ozon_not_prices sent (sent ++ new))
    by (exists new; split; [reflexivity | assumption]).
  assert (Hmore : forall batches,
             extends ozon_not_prices sent
                     ((sent ++ new) ++ map Ozon.ImportStocks batches)).
  { intros batches. exists (new ++ map Ozon.ImportStocks batches).
    split; [now rewrite app_assoc|].
    apply Forall_app. split; [assumption | apply stocks_not_prices]. }
  unfold Ozon.main, try_except, io_bind.
  destruct (Ozon.get_offer_ids srv fuel sent) as [[ids|f|] s1] eqn:Eg;
    simpl in Es; subst s1;
    [|split; [discriminate | exact Hbase] ..].
  specialize (Hnd ids _ eq_refl).
  destruct download as [f|feed];
    [split; [discriminate | exact Hbase]|].
  unfold io_lift.
  destruct (Seller.create_stocks feed ids) as [[stocks left]|e] eqn:Ec;
    [|split; [discriminate | exact Hbase]].
  destruct (@divide_total _ stocks 100 ltac:(lia)) as [batches ->].
  destruct (ozon_update_stocks_outcome srv batches (sent ++ new))
    as [[E _] | [pre [x [post [f [_ [_ E]]]]]]]; rewrite E;
    [|split; [discriminate | apply Hmore]].
  pose proof (seller_reconciled feed Hnd Ec) as [_ [_ [_ [EC _]]]].
  subst left. rewrite create_prices_unmatched.
  rewrite divide_nil by lia. simpl.
  split; [discriminate | apply Hmore].
Qed.

Lemma ozon_main_sends_no_prices_witness :
  extends ozon_not_prices []
          (snd (Ozon.main ozon_demo 5 (inr feed_48852) [])).
Proof.
  refine (proj2 (@ozon_main_sends_no_prices ozon_demo 5 (inr feed_48852) [] _)).
  intros offer_ids sent1 E. injection E as <- _.
  repeat constructor; simpl; intuition discriminate.
Defined.

(** ** Uploading to Yandex.Market *)

Lemma yandex_stocks_pushed (campaign_id : string)
    (l : list (list Market.sku_stock)) :
  forall w,
    fold_left (fun w b => Yandex.send w (Yandex.PutStocks campaign_id b)) l w
    = {| Yandex.sent := Yandex.sent w
                        ++ map (Yandex.PutStocks campaign_id) l;
         Yandex.now := Yandex.now w |}.
Proof.
  induction l as [|b l IH]; intros w; simpl.
  - rewrite app_nil_r. now destruct w.
  - rewrite IH. simpl. now rewrite <- app_assoc.
Qed.

Lemma yandex_update_stocks_outcome (srv : Yandex.server)
    (campaign_id : string) (l : list (list Market.sku_stock))
    (w : Yandex.world) :
  exists done f_opt,
    for_each (fun some_stock => Yandex.update_stocks srv some_stock campaign_id)
             l w
    = (match f_opt with
       | None => Returned tt
       | Some f => Failed f
       end,
       {| Yandex.sent := Yandex.sent w
                         ++ map (Yandex.PutStocks campaign_id) done;
          Yandex.now := Yandex.now w |}) /\
    (f_opt = None -> done = l).
Proof.
  destruct (@for_each_outcome _ _
              (fun some_stock => Yandex.update_stocks srv some_stock campaign_id)
              (fun w b => Yandex.put_stocks srv (Yandex.sent w) campaign_id b)
              (fun w b => Yandex.send w (Yandex.PutStocks campaign_id b))
              (fun _ _ => eq_refl) l w)
    as [[E _] | [pre [x [post [f [_ [_ E]]]]]]];
    rewrite yandex_stocks_pushed in E.
  - exists l, None. split; [exact E | reflexivity].
  - exists (pre ++ [x]), (Some f). split; [exact E | discriminate].
Qed.

Lemma yandex_get_offer_ids_only_lists (srv : Yandex.server) (fuel : nat)
    (campaign_id : string) (w : Yandex.world) :
  exists new,
    snd (Yandex.get_offer_ids srv fuel campaign_id w)
    = {| Yandex.sent := Yandex.sent w ++ new; Yandex.now := Yandex.now w |} /\
    Forall (yandex_stock_sync campaign_id) new.
Proof.
  unfold Yandex.get_offer_ids, io_bind.
  destruct (fetch_entries_only_lists srv fuel campaign_id EmptyString [] w)
    as [new [E Hn]].
  exists new. split; [|exact Hn].
  destruct (Yandex.fetch_entries srv fuel campaign_id EmptyString [] w)
    as [[a|f|] w1]; exact E.
Qed.

Lemma yandex_create_stocks_world (feed : list watch) (ids : list string)
    (wh : string) (w : Yandex.world) :
  Yandex.create_stocks feed ids wh w
  = (match fst (Market.create_stocks feed ids wh (Yandex.now w)) with
     | Ok r => Returned r
     | Raise e => Failed (PyError e)
     end,
     {| Yandex.sent := Yandex.sent w;
        Yandex.now := {| Market.readings := Market.readings (Yandex.now w);
                         Market.reads := S (Market.reads (Yandex.now w)) |} |}).
Proof.
  unfold Yandex.create_stocks. rewrite market_create_stocks_eq.
  reflexivity.
Qed.

Lemma put_stocks_sync (campaign_id : string)
    (batches : list (list Market.sku_stock)) :
  Forall (yandex_stock_sync campaign_id)
         (map (Yandex.PutStocks campaign_id) batches).
Proof.
  apply Forall_forall. intros r Hr. apply in_map_iff in Hr as [b [<- _]].
  reflexivity.
Qed.

(** The stock update of one campaign: only requests of that campaign, none
    of them a price update; the clock read at most once; no failure left
    unreported. *)
Lemma sync_campaign_sends (srv : Yandex.server) (fuel : nat)
    (feed : list watch) (campaign_id wh : string) (w : Yandex.world) :
  exists new,
    Yandex.sent (snd (Yandex.sync_campaign srv fuel feed campaign_id wh w))
    = Yandex.sent w ++ new /\
    Forall (yandex_stock_sync campaign_id) new /\
    (Market.reads (Yandex.now
                     (snd (Yandex.sync_campaign srv fuel feed campaign_id wh w)))
     <= S (Market.reads (Yandex.now w)))%nat.
Proof.
  destruct (yandex_get_offer_ids_only_lists srv fuel campaign_id w)
    as [new [Es Hl]].
  unfold Yandex.sync_campaign, io_bind.
  destruct (Yandex.get_offer_ids srv fuel campaign_id w) as [[ids|f|] w1];
    simpl in Es; subst w1;
    [|exists new; simpl; repeat split; [assumption | lia] ..].
  rewrite yandex_create_stocks_world.
  destruct (fst (Market.create_stocks feed ids wh _)) as [[stocks left]|e];
    [|exists new; simpl; repeat split; [assumption | lia]].
  unfold io_lift.
  destruct (@divide_total _ stocks 2000 ltac:(lia)) as [batches ->].
  match goal with
  | |- context [for_each ?body batches ?w0] =>
      destruct (yandex_update_stocks_outcome srv campaign_id batches w0)
        as [done [fo [E _]]]; rewrite E
  end.
  exists (new ++ map (Yandex.PutStocks campaign_id) done).
  destruct fo as [f|]; simpl; rewrite <- app_assoc;
    (repeat split;
     [apply Forall_app; split; [assumption | apply put_stocks_sync] | lia]).
Qed.

(** X18: market.py's [main] never lets a failure out and never sends a
    price update: the coroutines its two [upload_prices(...)] statements
    build are never awaited.  What it sends is, for the FBS campaign and
    then for the DBS campaign, the requests for the pages of the catalog
    and the stock batches; the clock is read at most twice. *)
Theorem yandex_main_sends_no_prices (srv : Yandex.server) (fuel : nat)
    (feed : list watch) (fbs dbs wh_fbs wh_dbs : string) (w : Yandex.world) :
  (forall f,
      fst (Yandex.main srv fuel feed fbs dbs wh_fbs wh_dbs w) <> Failed f) /\
  (exists first second,
      Yandex.sent (snd (Yandex.main srv fuel feed fbs dbs wh_fbs wh_dbs w))
      = Yandex.sent w ++ first ++ second /\
      Forall (yandex_stock_sync fbs) first /\
      Forall (yandex_stock_sync dbs) second) /\
  (Market.reads (Yandex.now
                   (snd (Yandex.main srv fuel feed fbs dbs wh_fbs wh_dbs w)))
   <= 2 + Market.reads (Yandex.now w))%nat.
Proof.
  destruct (sync_campaign_sends srv fuel feed fbs wh_fbs w)
    as [first [E1 [H1 R1]]].
  unfold Yandex.main, try_except, io_bind.
  destruct (Yandex.sync_campaign srv fuel feed fbs wh_fbs w)
    as [[[]|f|] w1] eqn:Ef; simpl in E1, R1.
  - destruct (sync_campaign_sends srv fuel feed dbs wh_dbs w1)
      as [second [E2 [H2 R2]]].
    destruct (Yandex.sync_campaign srv fuel feed dbs wh_dbs w1)
      as [[[]|f|] w2]; simpl in E2, R2 |- *;
      (split; [discriminate|]; split;
       [exists first, second; rewrite E2, E1, <- app_assoc; auto | lia]).
  - simpl. split; [discriminate|]. split; [|lia].
    exists first, []. rewrite app_nil_r. auto.
  - simpl. split; [discriminate|]. split; [|lia].
    exists first, []. rewrite app_nil_r. auto.
Qed.







